(** * Transfer: payload decoding, status resolution and waiting

    A shallow embedding of [src/coinbase/transfer.ts] (class [Transfer]) and
    of the parts of the JavaScript runtime its methods call: [BigInt],
    [String.prototype.match], [parseInt], [Uint8Array], [TextDecoder] and
    [JSON.parse], and of the setters of [ethers.Transaction] that
    [getTransaction] assigns through.  The runtime functions follow
    ECMA-262 and the WHATWG Encoding standard, the setters the library, the
    class methods the source line by line.
    The constructor, which only checks that its two arguments are there,
    and [toString], which writes the status with the texts of [./types],
    are left out. *)

From Stdlib Require Import ZArith NArith List String Ascii Bool Lia.
From Stdlib Require Import SpecFloat QArith.
From Stdlib Require Import DecimalString DecimalPos DecimalZ.
From Stdlib Require Import HexadecimalString HexadecimalPos HexadecimalN.
Import ListNotations.

Local Open Scope Z_scope.

(** ** Errors and results *)

(** The exceptions a method can raise.  The three native errors come from the
    runtime ([BigInt], property access on [null]); [InvalidUnsignedPayload]
    is the class of [./errors] that [getTransaction] throws; [Error] is the
    plain JavaScript error.  Errors built by the source carry their message.
    [InvalidArgument] is the error that the ethers library builds when it
    refuses a value (a [TypeError] with the code [INVALID_ARGUMENT]), with
    its short message and the name of the argument. *)
Inductive JSError : Type :=
| Error (message : string)
| TypeError
| SyntaxError
| RangeError
| InvalidUnsignedPayload (message : string)
| InvalidArgument (shortMessage argument : string).

Inductive result (A : Type) : Type :=
| Ok (a : A)
| Throw (e : JSError).
Arguments Ok {A} a.
Arguments Throw {A} e.

Definition bind {A B : Type} (r : result A) (k : A -> result B) : result B :=
  match r with
  | Ok a => k a
  | Throw e => Throw e
  end.

Notation "'let*' x ':=' r 'in' k" := (bind r (fun x => k))
  (at level 10, x name, r at level 100, k at level 200).

(** ** Strings

    A JavaScript string is a sequence of UTF-16 code units.  The fields of
    the server model are kept as [string] (code units below 256); text that
    went through [TextDecoder] is a list of code units. *)
Definition utf16 : Type := list N.

Definition code_units (s : string) : utf16 :=
  map N_of_ascii (list_ascii_of_string s).

Fixpoint utf16_eqb (a b : utf16) : bool :=
  match a, b with
  | [], [] => true
  | x :: a', y :: b' => (x =? y)%N && utf16_eqb a' b'
  | _, _ => false
  end.

(** [WhiteSpace] and [LineTerminator] of ECMA-262 (the characters that
    [StringToBigInt] and [parseInt] strip). *)
Definition isStrWhiteSpaceChar (c : N) : bool :=
  ((c =? 9) || (c =? 10) || (c =? 11) || (c =? 12) || (c =? 13) || (c =? 32)
   || (c =? 160) || (c =? 0x1680) || ((0x2000 <=? c) && (c <=? 0x200A))
   || (c =? 0x2028) || (c =? 0x2029) || (c =? 0x202F) || (c =? 0x205F)
   || (c =? 0x3000) || (c =? 0xFEFF))%N.

Fixpoint trimStart (s : utf16) : utf16 :=
  match s with
  | c :: r => if isStrWhiteSpaceChar c then trimStart r else s
  | [] => []
  end.

Definition trim (s : utf16) : utf16 := rev (trimStart (rev (trimStart s))).

(** The value of a digit in the given radix (letters in either case). *)
Definition digit_of (radix : Z) (c : N) : option Z :=
  let d :=
    if ((48 <=? c) && (c <=? 57))%N then Z.of_N c - 48
    else if ((97 <=? c) && (c <=? 122))%N then Z.of_N c - 87
    else if ((65 <=? c) && (c <=? 90))%N then Z.of_N c - 55
    else radix in
  if d <? radix then Some d else None.

Fixpoint digits_value (radix acc : Z) (l : utf16) : option Z :=
  match l with
  | [] => Some acc
  | c :: r =>
      match digit_of radix c with
      | Some d => digits_value radix (acc * radix + d) r
      | None => None
      end
  end.

(** One or more digits of the radix, and nothing else. *)
Definition parse_digits (radix : Z) (l : utf16) : option Z :=
  match l with
  | [] => None
  | _ => digits_value radix 0 l
  end.

(** [StringToBigInt]: surrounding white space is dropped; the empty string
    is [0n]; otherwise a signed decimal integer or an unsigned literal with
    prefix [0x], [0o] or [0b].  [None] is the failure that [BigInt] turns
    into a [SyntaxError]. *)
Definition StringToBigInt (s : utf16) : option Z :=
  match trim s with
  | [] => Some 0
  | c0 :: r0 =>
      let prefixed :=
        match r0 with
        | c1 :: r1 =>
            if (c0 =? 48)%N then
              if ((c1 =? 120) || (c1 =? 88))%N then Some (16, r1)
              else if ((c1 =? 111) || (c1 =? 79))%N then Some (8, r1)
              else if ((c1 =? 98) || (c1 =? 66))%N then Some (2, r1)
              else None
            else None
        | [] => None
        end in
      match prefixed with
      | Some (radix, r) => parse_digits radix r
      | None =>
          if (c0 =? 45)%N then option_map Z.opp (parse_digits 10 r0)
          else if (c0 =? 43)%N then parse_digits 10 r0
          else parse_digits 10 (c0 :: r0)
      end
  end.

(** ** Numbers

    A JavaScript Number is an IEEE 754 binary64 value, here a [spec_float]
    in canonical form: mantissa below [2^53], exponent between [-1074] and
    [971]. *)

(** The binary64 value nearest to [p / q] ([0 <= p], [0 < q]), ties to
    even. *)
Definition round_to_double (neg : bool) (p q : Z) : spec_float :=
  if p =? 0 then S754_zero neg
  else
    let scaled e := (p * 2 ^ Z.max 0 (- e), q * 2 ^ Z.max 0 e) in
    let e0 := Z.max (Z.log2 p - Z.log2 q - 53) (-1074) in
    let e1 :=
      let '(n, d) := scaled e0 in
      if 2 ^ 53 <=? n / d then e0 + 1 else e0 in
    let '(n, d) := scaled e1 in
    let m0 := n / d in
    let r := n mod d in
    let up := (d <? 2 * r) || ((d =? 2 * r) && Z.odd m0) in
    let m1 := if up then m0 + 1 else m0 in
    let '(m, e) := if m1 =? 2 ^ 53 then (2 ^ 52, e1 + 1) else (m1, e1) in
    if 971 <? e then S754_infinity neg
    else if m =? 0 then S754_zero neg
    else S754_finite neg (Z.to_pos m) e.

(** [m * 10 ^ e] as a fraction. *)
Definition decimal_fraction (m e : Z) : Z * Z :=
  if 0 <=? e then (m * 10 ^ e, 1) else (m, 10 ^ (- e)).

(** [NumberToBigInt]: the exact integer value of an integral Number;
    [None] (a [RangeError]) for a fraction, an infinity or NaN. *)
Definition NumberToBigInt (x : spec_float) : option Z :=
  match x with
  | S754_zero _ => Some 0
  | S754_finite s m e =>
      let v := if 0 <=? e then Some (Z.pos m * 2 ^ e)
               else if Z.pos m mod 2 ^ (- e) =? 0 then Some (Z.pos m / 2 ^ (- e))
               else None in
      option_map (fun z => if s then - z else z) v
  | _ => None
  end.

(** Decimal digits of a non-negative integer. *)
Definition decimal_digits (z : Z) : utf16 :=
  code_units (DecimalString.NilZero.string_of_uint (N.to_uint (Z.to_N z))).

Definition double_eqb (x y : spec_float) : bool :=
  match x, y with
  | S754_zero a, S754_zero b => Bool.eqb a b
  | S754_infinity a, S754_infinity b => Bool.eqb a b
  | S754_nan, S754_nan => true
  | S754_finite a m e, S754_finite b m' e' =>
      Bool.eqb a b && (m =? m')%positive && (e =? e')
  | _, _ => false
  end.

(** [Number::toString] looks for the shortest digit string [s] (of [k]
    digits) and the exponent [n] with [s * 10 ^ (n - k)] reading back as
    the Number.  [shortest_at] tries one [k]: the two integers around the
    scaled value are the only candidates, the nearer one is preferred and
    the even one on a tie. *)
Definition shortest_at (x : spec_float) (p q n k : Z) : option (Z * Z) :=
  let '(a, b) := if 0 <=? n - k then (p, q * 10 ^ (n - k))
                 else (p * 10 ^ (k - n), q) in
  let lo := a / b in
  let hi := lo + 1 in
  let reads_back s n' :=
    (10 ^ (k - 1) <=? s)
    && (let '(u, v) := decimal_fraction s (n' - k) in
        double_eqb (round_to_double false u v) x) in
  let cand_lo := if reads_back lo n then Some (lo, n) else None in
  let cand_hi :=
    if hi =? 10 ^ k then
      if reads_back (10 ^ (k - 1)) (n + 1) then Some (10 ^ (k - 1), n + 1)
      else None
    else if reads_back hi n then Some (hi, n) else None in
  match cand_lo, cand_hi with
  | Some l, Some h =>
      let twice := 2 * (a - lo * b) in
      if twice <? b then Some l
      else if b <? twice then Some h
      else if Z.even lo then Some l else Some h
  | Some l, None => Some l
  | None, h => h
  end.

Fixpoint shortest_from (x : spec_float) (p q n k : Z) (tries : nat)
  : Z * Z * Z :=
  match tries with
  | O => (0, k, n)
  | S tries' =>
      match shortest_at x p q n k with
      | Some (s, n') => (s, k, n')
      | None => shortest_from x p q n (k + 1) tries'
      end
  end.

Definition zeros (n : Z) : utf16 := repeat 48%N (Z.to_nat n).

(** [Number::toString] in radix 10. *)
Definition NumberToString (x : spec_float) : utf16 :=
  match x with
  | S754_nan => code_units "NaN"
  | S754_zero _ => code_units "0"
  | S754_infinity s => code_units (if s then "-Infinity" else "Infinity")
  | S754_finite sg m e =>
      let '(p, q) := if 0 <=? e then (Z.pos m * 2 ^ e, 1)
                     else (Z.pos m, 2 ^ (- e)) in
      let n1 := Z.of_nat (List.length (decimal_digits p))
                - Z.of_nat (List.length (decimal_digits q)) in
      let '(a, b) := if 0 <=? n1 then (p, q * 10 ^ n1)
                     else (p * 10 ^ (- n1), q) in
      let n0 := if b <=? a then n1 + 1 else n1 in
      let '(s, k, n) :=
        shortest_from (S754_finite false m e) p q n0 1 17 in
      let ds := decimal_digits s in
      let body :=
        if (k <=? n) && (n <=? 21) then ds ++ zeros (n - k)
        else if (0 <? n) && (n <=? 21) then
          firstn (Z.to_nat n) ds ++ 46%N :: skipn (Z.to_nat n) ds
        else if (-6 <? n) && (n <=? 0) then
          48%N :: 46%N :: zeros (- n) ++ ds
        else
          let ex := n - 1 in
          let tail := 101%N :: (if ex <? 0 then 45%N else 43%N)
                      :: decimal_digits (Z.abs ex) in
          match ds with
          | d :: (_ :: _) as more => d :: 46%N :: more ++ tail
          | _ => ds ++ tail
          end in
      if sg then 45%N :: body else body
  end.

(** ** Values

    What [JSON.parse] can return, and [undefined] for a property that is
    not there.  An object keeps its properties in the order of the text;
    when a name is repeated the last one counts. *)
#[local] Set Warnings "-register-all".
Inductive JSValue : Type :=
| JUndefined
| JNull
| JBool (b : bool)
| JNumber (x : spec_float)
| JString (s : utf16)
| JArray (elements : list JSValue)
| JObject (properties : list (utf16 * JSValue)).

Fixpoint own_property (key : utf16) (props : list (utf16 * JSValue))
  : option JSValue :=
  match props with
  | [] => None
  | (k, v) :: r =>
      match own_property key r with
      | Some later => Some later
      | None => if utf16_eqb k key then Some v else None
      end
  end.

(** [ToString].  An array goes through [Array.prototype.join], where
    [undefined] and [null] elements give the empty string.  A parsed object
    has no callable property of its own, so a property called [toString]
    hides [Object.prototype.toString] and the conversion fails; without one
    the result is the text "[object Object]". *)
Fixpoint ToString (v : JSValue) : result utf16 :=
  match v with
  | JUndefined => Ok (code_units "undefined")
  | JNull => Ok (code_units "null")
  | JBool b => Ok (code_units (if b then "true" else "false"))
  | JNumber x => Ok (NumberToString x)
  | JString s => Ok s
  | JArray l =>
      (fix join (l : list JSValue) : result utf16 :=
         match l with
         | [] => Ok []
         | x :: r =>
             let* a := match x with
                       | JUndefined | JNull => Ok []
                       | _ => ToString x
                       end in
             match r with
             | [] => Ok a
             | _ :: _ => let* b := join r in Ok (a ++ 44%N :: b)
             end
         end) l
  | JObject props =>
      match own_property (code_units "toString") props with
      | Some _ => Throw TypeError
      | None => Ok (code_units "[object Object]")
      end
  end.

(** [ToPrimitive] with hint number: [valueOf] of an array or object never
    gives a primitive, so the string conversion decides. *)
Definition ToPrimitive (v : JSValue) : result JSValue :=
  match v with
  | JArray _ | JObject _ => let* s := ToString v in Ok (JString s)
  | _ => Ok v
  end.

(** The function [BigInt(value)]. *)
Definition BigInt (v : JSValue) : result Z :=
  let* prim := ToPrimitive v in
  match prim with
  | JNumber x =>
      match NumberToBigInt x with
      | Some z => Ok z
      | None => Throw RangeError
      end
  | JBool b => Ok (if b then 1 else 0)
  | JString s =>
      match StringToBigInt s with
      | Some z => Ok z
      | None => Throw SyntaxError
      end
  | _ => Throw TypeError
  end.

(** Property access [v.key], for a name that no built-in prototype defines
    (the names read from a payload are of this kind): reading from [null]
    throws, a primitive or an array has no such property. *)
Definition Get (v : JSValue) (key : string) : result JSValue :=
  match v with
  | JUndefined | JNull => Throw TypeError
  | JObject props =>
      Ok (match own_property (code_units key) props with
          | Some x => x
          | None => JUndefined
          end)
  | _ => Ok JUndefined
  end.

(** ** [TextDecoder]

    [new TextDecoder().decode(bytes)]: the UTF-8 decoder of the Encoding
    standard in its default mode.  A malformed sequence gives U+FFFD and
    decoding goes on (nothing is thrown); a leading byte order mark is
    dropped. *)
Record utf8_state : Type := {
  code_point : N;
  bytes_needed : N;
  lower_boundary : N;
  upper_boundary : N
}.

Definition utf8_initial : utf8_state :=
  {| code_point := 0; bytes_needed := 0;
     lower_boundary := 0x80; upper_boundary := 0xBF |}.

(** The decoder on a byte when no sequence is open. *)
Definition utf8_lead (b : N) : list N * utf8_state :=
  (if b <=? 0x7F then ([b], utf8_initial)
   else if (0xC2 <=? b) && (b <=? 0xDF) then
     ([], {| code_point := N.land b 0x1F; bytes_needed := 1;
             lower_boundary := 0x80; upper_boundary := 0xBF |})
   else if (0xE0 <=? b) && (b <=? 0xEF) then
     ([], {| code_point := N.land b 0xF; bytes_needed := 2;
             lower_boundary := if b =? 0xE0 then 0xA0 else 0x80;
             upper_boundary := if b =? 0xED then 0x9F else 0xBF |})
   else if (0xF0 <=? b) && (b <=? 0xF4) then
     ([], {| code_point := N.land b 0x7; bytes_needed := 3;
             lower_boundary := if b =? 0xF0 then 0x90 else 0x80;
             upper_boundary := if b =? 0xF4 then 0x8F else 0xBF |})
   else ([0xFFFD], utf8_initial))%N.

(** One byte: a byte that cannot continue the open sequence closes it
    with U+FFFD and is then read again as a lead byte. *)
Definition utf8_step (st : utf8_state) (b : N) : list N * utf8_state :=
  (if bytes_needed st =? 0 then utf8_lead b
   else if (b <? lower_boundary st) || (upper_boundary st <? b) then
     let '(out, st') := utf8_lead b in (0xFFFD :: out, st')
   else
     let cp := N.lor (N.shiftl (code_point st) 6) (N.land b 0x3F) in
     if bytes_needed st =? 1 then ([cp], utf8_initial)
     else ([], {| code_point := cp; bytes_needed := bytes_needed st - 1;
                  lower_boundary := 0x80; upper_boundary := 0xBF |}))%N.

Fixpoint utf8_decode (st : utf8_state) (bytes : list N) : list N :=
  match bytes with
  | [] => if (bytes_needed st =? 0)%N then [] else [0xFFFD%N]
  | b :: r => let '(out, st') := utf8_step st b in out ++ utf8_decode st' r
  end.

(** A code point as UTF-16 code units. *)
Definition utf16_encode (cp : N) : utf16 :=
  (if cp <? 0x10000 then [cp]
   else let c := cp - 0x10000 in
        [0xD800 + N.shiftr c 10; 0xDC00 + N.land c 0x3FF])%N.

Definition TextDecoder_decode (bytes : list N) : utf16 :=
  let cps := utf8_decode utf8_initial bytes in
  let cps := match cps with
             | c :: r => if (c =? 0xFEFF)%N then r else cps
             | [] => []
             end in
  flat_map utf16_encode cps.

(** ** [JSON.parse] *)

Inductive parsed (A : Type) : Type :=
| Parsed (a : A) (rest : utf16)
| Invalid
| OutOfFuel.
Arguments Parsed {A} a rest.
Arguments Invalid {A}.
Arguments OutOfFuel {A}.

Definition isJSONWhiteSpace (c : N) : bool :=
  ((c =? 9) || (c =? 10) || (c =? 13) || (c =? 32))%N.

Fixpoint skip_ws (s : utf16) : utf16 :=
  match s with
  | c :: r => if isJSONWhiteSpace c then skip_ws r else s
  | [] => []
  end.

Definition isDigit (c : N) : bool := ((48 <=? c) && (c <=? 57))%N.

Fixpoint span_digits (s : utf16) : utf16 * utf16 :=
  match s with
  | c :: r =>
      if isDigit c then let '(d, rest) := span_digits r in (c :: d, rest)
      else ([], s)
  | [] => ([], [])
  end.

(** The characters of a string literal after the opening quote, up to the
    closing one. *)
Fixpoint parse_string_body (s acc : utf16) : parsed utf16 :=
  match s with
  | [] => Invalid
  | c :: r =>
      if (c =? 34)%N then Parsed (rev acc) r
      else if (c =? 92)%N then
        match r with
        | [] => Invalid
        | e :: r1 =>
            let simple u := parse_string_body r1 (u :: acc) in
            (if (e =? 34) || (e =? 92) || (e =? 47) then simple e
             else if e =? 98 then simple 8
             else if e =? 102 then simple 12
             else if e =? 110 then simple 10
             else if e =? 114 then simple 13
             else if e =? 116 then simple 9
             else if e =? 117 then
               match r1 with
               | h1 :: h2 :: h3 :: h4 :: r2 =>
                   match digits_value 16 0 [h1; h2; h3; h4] with
                   | Some u => parse_string_body r2 (Z.to_N u :: acc)
                   | None => Invalid
                   end
               | _ => Invalid
               end
             else Invalid)%N
        end
      else if (c <? 32)%N then Invalid
      else parse_string_body r (c :: acc)
  end.

(** The Number value of a literal with digits [m] and decimal exponent [e]:
    the nearest binary64 value.  A literal no smaller than [10 ^ 400] is
    beyond the largest Number, one below [10 ^ -400] rounds to zero. *)
Definition number_value (neg : bool) (digits : utf16) (e : Z) : spec_float :=
  match digits_value 10 0 digits with
  | Some m =>
      if m =? 0 then S754_zero neg
      else if 400 <=? e then S754_infinity neg
      else if Z.of_nat (List.length digits) + e <=? -400 then S754_zero neg
      else let '(p, q) := decimal_fraction m e in round_to_double neg p q
  | None => S754_nan
  end.

(** The four parts of a number literal, [-]? int frac? exp?, each with
    what follows it: the sign; the integer part, which is [0] or starts
    with another digit; the fraction, a dot and at least one digit; the
    exponent, [e] or [E], a sign and at least one digit. *)
Definition number_sign (s : utf16) : bool * utf16 :=
  match s with
  | c :: r => if (c =? 45)%N then (true, r) else (false, s)
  | [] => (false, s)
  end.

Definition number_int (s : utf16) : utf16 * utf16 :=
  match s with
  | c :: r => if (c =? 48)%N then ([c], r) else span_digits s
  | [] => ([], s)
  end.

Definition number_frac (s : utf16) : option (utf16 * utf16) :=
  match s with
  | c :: r =>
      if (c =? 46)%N then
        match span_digits r with
        | ([], _) => None
        | (f, rest) => Some (f, rest)
        end
      else Some ([], s)
  | [] => Some ([], s)
  end.

Definition exponent_sign (s : utf16) : bool * utf16 :=
  match s with
  | g :: r => if (g =? 45)%N then (true, r)
              else if (g =? 43)%N then (false, r)
              else (false, s)
  | [] => (false, s)
  end.

Definition number_exp (s : utf16) : option (Z * utf16) :=
  match s with
  | c :: r =>
      if ((c =? 101) || (c =? 69))%N then
        let '(eneg, r) := exponent_sign r in
        match span_digits r with
        | ([], _) => None
        | (ds, rest) =>
            match digits_value 10 0 ds with
            | Some v => Some ((if eneg then - v else v), rest)
            | None => None
            end
        end
      else Some (0, s)
  | [] => Some (0, s)
  end.

Definition parse_number (s : utf16) : parsed spec_float :=
  let '(neg, s) := number_sign s in
  let '(int, s) := number_int s in
  match int with
  | [] => Invalid
  | _ :: _ =>
      match number_frac s with
      | None => Invalid
      | Some (f, s) =>
          match number_exp s with
          | None => Invalid
          | Some (e, rest) =>
              Parsed (number_value neg (int ++ f)
                        (e - Z.of_nat (List.length f))) rest
          end
      end
  end.

Fixpoint strip_prefix (p s : utf16) : option utf16 :=
  match p, s with
  | [], _ => Some s
  | a :: p', b :: s' => if (a =? b)%N then strip_prefix p' s' else None
  | _ :: _, [] => None
  end.

(** A value, the elements of an array after a first [[], and the members
    of an object after [{]; each call uses one unit of fuel. *)
Fixpoint parse_value (fuel : nat) (s : utf16) {struct fuel} : parsed JSValue :=
  match fuel with
  | O => OutOfFuel
  | S fuel' =>
      match skip_ws s with
      | [] => Invalid
      | c :: r =>
          (if c =? 123 then
             match skip_ws r with
             | c' :: r' => if c' =? 125 then Parsed (JObject []) r'
                           else parse_members fuel' [] r
             | [] => Invalid
             end
           else if c =? 91 then
             match skip_ws r with
             | c' :: r' => if c' =? 93 then Parsed (JArray []) r'
                           else parse_elements fuel' [] r
             | [] => Invalid
             end
           else if c =? 34 then
             match parse_string_body r [] with
             | Parsed str rest => Parsed (JString str) rest
             | Invalid => Invalid
             | OutOfFuel => OutOfFuel
             end
           else if (c =? 45) || isDigit c then
             match parse_number (c :: r) with
             | Parsed x rest => Parsed (JNumber x) rest
             | Invalid => Invalid
             | OutOfFuel => OutOfFuel
             end
           else
             match strip_prefix (code_units "true") (c :: r) with
             | Some rest => Parsed (JBool true) rest
             | None =>
                 match strip_prefix (code_units "false") (c :: r) with
                 | Some rest => Parsed (JBool false) rest
                 | None =>
                     match strip_prefix (code_units "null") (c :: r) with
                     | Some rest => Parsed JNull rest
                     | None => Invalid
                     end
                 end
             end)%N
      end
  end

with parse_elements (fuel : nat) (acc : list JSValue) (s : utf16)
  {struct fuel} : parsed JSValue :=
  match fuel with
  | O => OutOfFuel
  | S fuel' =>
      match parse_value fuel' s with
      | Parsed v rest =>
          match skip_ws rest with
          | c :: r =>
              (if c =? 44 then parse_elements fuel' (v :: acc) r
               else if c =? 93 then Parsed (JArray (rev (v :: acc))) r
               else Invalid)%N
          | [] => Invalid
          end
      | Invalid => Invalid
      | OutOfFuel => OutOfFuel
      end
  end

with parse_members (fuel : nat) (acc : list (utf16 * JSValue)) (s : utf16)
  {struct fuel} : parsed JSValue :=
  match fuel with
  | O => OutOfFuel
  | S fuel' =>
      match skip_ws s with
      | q :: r =>
          if (q =? 34)%N then
            match parse_string_body r [] with
            | Parsed key rest =>
                match skip_ws rest with
                | c :: r1 =>
                    if (c =? 58)%N then
                      match parse_value fuel' r1 with
                      | Parsed v rest' =>
                          match skip_ws rest' with
                          | d :: r2 =>
                              (if d =? 44 then
                                 parse_members fuel' ((key, v) :: acc) r2
                               else if d =? 125 then
                                 Parsed (JObject (rev ((key, v) :: acc))) r2
                               else Invalid)%N
                          | [] => Invalid
                          end
                      | Invalid => Invalid
                      | OutOfFuel => OutOfFuel
                      end
                    else Invalid
                | [] => Invalid
                end
            | Invalid => Invalid
            | OutOfFuel => OutOfFuel
            end
          else Invalid
      | [] => Invalid
      end
  end.

(** [JSON.parse(text)]: one value with optional white space around it;
    [None] is the [SyntaxError].  The fuel covers two calls for each
    character, which is as deep as the three functions can nest. *)
Definition JSON_parse (text : utf16) : option JSValue :=
  match parse_value (2 * List.length text + 2) text with
  | Parsed v rest =>
      match skip_ws rest with
      | [] => Some v
      | _ :: _ => None
      end
  | _ => None
  end.

(** ** The hexadecimal stage *)

(** The line terminators that [.] of a regular expression does not match
    (U+2028 and U+2029 are beyond the code units a [string] holds). *)
Definition isLineTerminator (a : ascii) : bool :=
  ((N_of_ascii a =? 10) || (N_of_ascii a =? 13))%N.

(** [s.match(/../g)]: the successive pairs of characters, read from the
    left; a character that cannot start a pair is skipped, and so is a
    last character left alone.  No pair at all is [null]. *)
Fixpoint match_pairs (s : string) : list string :=
  match s with
  | String a (String b r as t) =>
      if negb (isLineTerminator a) && negb (isLineTerminator b)
      then String a (String b EmptyString) :: match_pairs r
      else match_pairs t
  | _ => []
  end.

Definition String_match_pairs (s : string) : option (list string) :=
  match match_pairs s with
  | [] => None
  | l => Some l
  end.

Fixpoint radix_prefix (radix : Z) (s : utf16) : utf16 :=
  match s with
  | c :: r =>
      match digit_of radix c with
      | Some _ => c :: radix_prefix radix r
      | None => []
      end
  | [] => []
  end.

(** [parseInt(str, 16)]: leading white space, a sign and a [0x] prefix are
    accepted, then the longest run of hexadecimal digits is read and the
    rest is ignored; [None] is [NaN] (no digit).  The result is the integer
    read, which a Number holds exactly for the two characters of a pair. *)
Definition parseInt16 (str : string) : option Z :=
  let s := trimStart (code_units str) in
  let '(neg, s) :=
    match s with
    | c :: r => if (c =? 45)%N then (true, r)
                else if (c =? 43)%N then (false, r) else (false, s)
    | [] => (false, s)
    end in
  let s :=
    match s with
    | c0 :: c1 :: r =>
        if ((c0 =? 48) && ((c1 =? 120) || (c1 =? 88)))%N then r else s
    | _ => s
    end in
  match radix_prefix 16 s with
  | [] => None
  | ds => option_map (fun v => if neg then - v else v) (digits_value 16 0 ds)
  end.

(** [new Uint8Array(numbers)]: each element goes through [ToUint8], which
    sends [NaN] to [0] and an integer to its residue modulo [256]. *)
Definition ToUint8 (x : option Z) : N :=
  match x with
  | None => 0%N
  | Some z => Z.to_N (z mod 256)
  end.

Definition Uint8Array (numbers : list (option Z)) : list N :=
  map ToUint8 numbers.

(** ** Collaborators of the class *)

(** Modelled from the spec: [TransferStatus] of [./types] is not among the
    sources; the spec names the four lifecycle states, of which [COMPLETE]
    and [FAILED] are terminal. *)
Inductive TransferStatus : Type := PENDING | BROADCAST | COMPLETE | FAILED.

Module Coinbase.
(** Modelled from the spec: the class [Coinbase] of [./coinbase] is not
    among the sources.  [assetList.Eth] is the identifier of the
    network-native asset; a record is native when its asset identifier is
    this one, whatever the text is. *)
Definition assetList_Eth : string := "eth".

(** Modelled from the spec: [WEI_PER_ETHER] of the same class is the fixed
    atomic-unit divisor of the 18-decimal native asset, [10 ^ 18]. *)
Definition WEI_PER_ETHER : Z := 10 ^ 18.
End Coinbase.

Module api.
(** Modelled from the spec: the server model [Transfer] of
    [../client/api] is not among the sources; the fields are the ones the
    accessors of the class read.  It is the JSON object the server sent,
    so [amount] is the text of the atomic amount. *)
Record TransferModel : Type := {
  transfer_id : string;
  network_id : string;
  wallet_id : string;
  address_id : string;
  destination : string;
  asset_id : string;
  amount : string;
  unsigned_payload : string;
  signed_payload : option string;
  transaction_hash : option string
}.
End api.

(** The library [ethers] (version 6) that the class imports: of its class
    [Transaction] the properties that [getTransaction] writes, with the
    setters that check what they are given ([getNumber] for the nonce,
    [getAddress] for the recipient, [hexlify] for the data), and of its
    providers the two calls of [getStatus]. *)
Module ethers.
(** *** Keccak-256, which the address checksum uses

    The state is 25 lanes of 64 bits, lane [(x, y)] at position
    [x + 5 * y]; a block of 136 bytes is absorbed at a time. *)
Definition rotl64 (w n : N) : N :=
  (N.lor (N.shiftl w n) (N.shiftr w (64 - n)) mod 2 ^ 64)%N.

Definition lane (st : list N) (x y : nat) : N :=
  nth (x mod 5 + 5 * (y mod 5)) st 0%N.

Definition rotation_offsets : list N :=
  [0; 1; 62; 28; 27;
   36; 44; 6; 55; 20;
   3; 10; 43; 25; 39;
   41; 45; 15; 21; 8;
   18; 2; 61; 56; 14]%N.

Definition round_constants : list N :=
  [0x0000000000000001; 0x0000000000008082; 0x800000000000808A;
   0x8000000080008000; 0x000000000000808B; 0x0000000080000001;
   0x8000000080008081; 0x8000000000008009; 0x000000000000008A;
   0x0000000000000088; 0x0000000080008009; 0x000000008000000A;
   0x000000008000808B; 0x800000000000008B; 0x8000000000008089;
   0x8000000000008003; 0x8000000000008002; 0x8000000000000080;
   0x000000000000800A; 0x800000008000000A; 0x8000000080008081;
   0x8000000000008080; 0x0000000080000001; 0x8000000080008008]%N.

Definition lanes (f : nat -> nat -> N) : list N :=
  map (fun idx => f (idx mod 5)%nat (idx / 5)%nat) (seq 0 25).

(** One round: theta, rho and pi, chi, iota. *)
Definition keccak_round (st : list N) (rc : N) : list N :=
  let C x := fold_left N.lxor (map (lane st x) (seq 0 5)) 0%N in
  let D x := N.lxor (C (x + 4)%nat) (rotl64 (C (x + 1)%nat) 1) in
  let theta := lanes (fun x y => N.lxor (lane st x y) (D x)) in
  let B := lanes (fun X Y =>
                    let x := ((X + 3 * Y) mod 5)%nat in
                    rotl64 (lane theta x X) (lane rotation_offsets x X)) in
  let chi := lanes (fun x y =>
                      N.lxor (lane B x y)
                        (N.land (N.lxor (lane B (x + 1) y) (2 ^ 64 - 1))
                           (lane B (x + 2) y))) in
  match chi with
  | a :: r => N.lxor a rc :: r
  | [] => []
  end.

Definition keccak_f (st : list N) : list N :=
  fold_left keccak_round round_constants st.

Fixpoint lanes_of_bytes (bytes : list N) : list N :=
  match bytes with
  | b0 :: b1 :: b2 :: b3 :: b4 :: b5 :: b6 :: b7 :: r =>
      (b0 + 2 ^ 8 * b1 + 2 ^ 16 * b2 + 2 ^ 24 * b3 + 2 ^ 32 * b4
       + 2 ^ 40 * b5 + 2 ^ 48 * b6 + 2 ^ 56 * b7)%N :: lanes_of_bytes r
  | _ => []
  end.

Definition bytes_of_lane (w : N) : list N :=
  map (fun k => (N.shiftr w (8 * N.of_nat k) mod 256)%N) (seq 0 8).

Fixpoint xor_into (st block : list N) : list N :=
  match st, block with
  | a :: st', b :: block' => N.lxor a b :: xor_into st' block'
  | _, _ => st
  end.

(** The padding of Keccak (first byte 1, last byte 128) up to whole
    blocks. *)
Definition keccak_pad (message : list N) : list N :=
  let q := (136 - List.length message mod 136)%nat in
  match q with
  | 1%nat => message ++ [0x81%N]
  | _ => message ++ 1%N :: repeat 0%N (q - 2) ++ [0x80%N]
  end.

Fixpoint absorb (blocks : nat) (st padded : list N) : list N :=
  match blocks with
  | O => st
  | S blocks' =>
      absorb blocks'
        (keccak_f (xor_into st (lanes_of_bytes (firstn 136 padded))))
        (skipn 136 padded)
  end.

(** [keccak256(bytes)], as 32 bytes. *)
Definition keccak256 (message : list N) : list N :=
  let padded := keccak_pad message in
  let st := absorb (List.length padded / 136) (repeat 0%N 25) padded in
  flat_map bytes_of_lane (firstn 4 st).

(** *** Addresses, bytes and numbers

    The texts these functions work on have passed a test that leaves only
    digits and unaccented letters, so the change of case is the one of
    these letters. *)
Definition toLowerCase (s : utf16) : utf16 :=
  map (fun c => if ((65 <=? c) && (c <=? 90))%N then (c + 32)%N else c) s.

Definition toUpperCase (s : utf16) : utf16 :=
  map (fun c => if ((97 <=? c) && (c <=? 122))%N then (c - 32)%N else c) s.

Definition isHexDigit (c : N) : bool :=
  match digit_of 16 c with
  | Some _ => true
  | None => false
  end.

Definition isAlphanumeric (c : N) : bool :=
  match digit_of 36 c with
  | Some _ => true
  | None => false
  end.

Definition text (s : utf16) : string :=
  string_of_list_ascii (map ascii_of_N s).

(** A character in upper case when its half byte of the hash is 8 or
    more. *)
Fixpoint apply_checksum (chars nibbles : list N) : list N :=
  match chars, nibbles with
  | c :: cs, n :: ns =>
      (if (8 <=? n)%N
       then (if ((97 <=? c) && (c <=? 122))%N then (c - 32)%N else c)
       else c)
      :: apply_checksum cs ns
  | _, _ => chars
  end.

(** [getChecksumAddress], on "0x" and at least 40 hexadecimal digits: the
    hash of the first 40 digits in lower case decides their case. *)
Definition getChecksumAddress (address : utf16) : utf16 :=
  let chars := skipn 2 (toLowerCase address) in
  let hashed := keccak256 (firstn 40 chars) in
  let nibbles := flat_map (fun b => [(b / 16)%N; (b mod 16)%N]) hashed in
  48%N :: 120%N :: apply_checksum chars (firstn 40 nibbles).

(** The test [/^(0x)?[0-9a-fA-F]{40}$/]. *)
Definition isHexAddress (address : utf16) : bool :=
  let digits :=
    match address with
    | c0 :: c1 :: r =>
        if ((c0 =? 48) && (c1 =? 120))%N then r else address
    | _ => address
    end in
  (List.length digits =? 40)%nat && forallb isHexDigit digits.

Definition startsWith0x (address : utf16) : bool :=
  match address with
  | c0 :: c1 :: _ => ((c0 =? 48) && (c1 =? 120))%N
  | _ => false
  end.

(** The test [/([A-F].*[a-f])|([a-f].*[A-F])/]: a letter of each case. *)
Definition isMixedCase (address : utf16) : bool :=
  existsb (fun c => ((65 <=? c) && (c <=? 70))%N) address
  && existsb (fun c => ((97 <=? c) && (c <=? 102))%N) address.

(** The test [/^XE[0-9]{2}[0-9A-Za-z]{30,31}$/]. *)
Definition isIcapAddress (address : utf16) : bool :=
  match address with
  | x :: e :: d0 :: d1 :: r =>
      ((x =? 88) && (e =? 69))%N && isDigit d0 && isDigit d1
      && ((List.length r =? 30)%nat || (List.length r =? 31)%nat)
      && forallb isAlphanumeric r
  | _ => false
  end.

(** The number that the digits and letters of a text spell when each
    letter is written as the two digits of 10 to 35. *)
Definition iban_number (s : utf16) : Z :=
  fold_left
    (fun acc c =>
       match digit_of 36 c with
       | Some d => if d <? 10 then acc * 10 + d else acc * 100 + d
       | None => acc
       end) s 0.

(** [ibanChecksum]: 98 less the remainder modulo 97 of the number of the
    rearranged text (the library takes the remainder 15 digits at a time,
    which gives the same number), as two digits. *)
Definition ibanChecksum (address : utf16) : utf16 :=
  let upper := toUpperCase address in
  let rearranged := skipn 4 upper ++ firstn 2 upper ++ [48; 48]%N in
  let checksum := 98 - iban_number rearranged mod 97 in
  [Z.to_N (48 + checksum / 10); Z.to_N (48 + checksum mod 10)].

(** [fromBase36]. *)
Definition fromBase36 (s : utf16) : Z :=
  fold_left
    (fun acc c =>
       match digit_of 36 c with
       | Some d => acc * 36 + d
       | None => acc
       end) s 0.

(** The digits of [n.toString(16)], with zeros before them up to 40
    digits. *)
Definition padded_hex (n : Z) : utf16 :=
  let digits :=
    code_units (HexadecimalString.NilZero.string_of_uint
                  (N.to_hex_uint (Z.to_N n))) in
  repeat 48%N (40 - List.length digits) ++ digits.

(** [getAddress(address)] for a string. *)
Definition getAddress (address : utf16) : result string :=
  if isHexAddress address then
    let address := if startsWith0x address then address
                   else 48%N :: 120%N :: address in
    let checksummed := getChecksumAddress address in
    if negb (isMixedCase address) || utf16_eqb checksummed address
    then Ok (text checksummed)
    else Throw (InvalidArgument "bad address checksum" "address")
  else if isIcapAddress address then
    if utf16_eqb (firstn 2 (skipn 2 address)) (ibanChecksum address)
    then Ok (text (getChecksumAddress
                     (48%N :: 120%N
                      :: padded_hex (fromBase36 (skipn 4 address)))))
    else Throw (InvalidArgument "bad icap checksum" "address")
  else Throw (InvalidArgument "invalid address" "address").

(** [hexlify(value)] for a value that is no byte array: a string that
    passes [/^0x([0-9a-f][0-9a-f])*$/i] is written again in lower case,
    anything else is refused. *)
Definition hexlify (v : JSValue) : result string :=
  let refused := Throw (InvalidArgument "invalid BytesLike value" "value") in
  match v with
  | JString (c0 :: c1 :: digits) =>
      if ((c0 =? 48) && ((c1 =? 120) || (c1 =? 88)))%N
         && forallb isHexDigit digits
         && Nat.even (List.length digits)
      then Ok (text (48%N :: 120%N :: toLowerCase digits))
      else refused
  | _ => refused
  end.

(** [getNumber(value, "value")] for a BigInt: the integer as a Number, if
    it is a safe integer. *)
Definition maxValue : Z := 0x1fffffffffffff.

Definition getNumber (v : Z) : result Z :=
  if (- maxValue <=? v) && (v <=? maxValue) then Ok v
  else Throw (InvalidArgument "overflow" "value").

(** *** [ethers.Transaction]

    The properties the class writes, and the signature that tells a signed
    transaction from an unsigned one.  Each property is written through
    its setter: [nonce] becomes a Number, [to] a checksummed address or
    [null], [data] a hexadecimal text, and these three setters can refuse
    the value; the others take any BigInt. *)
Record Transaction : Type := {
  chainId : Z;
  nonce : Z;
  maxPriorityFeePerGas : option Z;
  maxFeePerGas : option Z;
  gasLimit : Z;
  to : option string;
  value : Z;
  data : string;
  signature : option string
}.

(** [new ethers.Transaction()]. *)
Definition new_Transaction : Transaction :=
  {| chainId := 0; nonce := 0; maxPriorityFeePerGas := None;
     maxFeePerGas := None; gasLimit := 0; to := None; value := 0;
     data := "0x"; signature := None |}.

Definition set_chainId (v : Z) (tx : Transaction) : Transaction :=
  {| chainId := v; nonce := nonce tx;
     maxPriorityFeePerGas := maxPriorityFeePerGas tx;
     maxFeePerGas := maxFeePerGas tx; gasLimit := gasLimit tx;
     to := to tx; value := value tx; data := data tx;
     signature := signature tx |}.

(** [tx.nonce = v]. *)
Definition set_nonce (v : Z) (tx : Transaction) : result Transaction :=
  let* n := getNumber v in
  Ok {| chainId := chainId tx; nonce := n;
        maxPriorityFeePerGas := maxPriorityFeePerGas tx;
        maxFeePerGas := maxFeePerGas tx; gasLimit := gasLimit tx;
        to := to tx; value := value tx; data := data tx;
        signature := signature tx |}.

Definition set_maxPriorityFeePerGas (v : Z) (tx : Transaction) : Transaction :=
  {| chainId := chainId tx; nonce := nonce tx;
     maxPriorityFeePerGas := Some v;
     maxFeePerGas := maxFeePerGas tx; gasLimit := gasLimit tx;
     to := to tx; value := value tx; data := data tx;
     signature := signature tx |}.
Definition set_maxFeePerGas (v : Z) (tx : Transaction) : Transaction :=
  {| chainId := chainId tx; nonce := nonce tx;
     maxPriorityFeePerGas := maxPriorityFeePerGas tx;
     maxFeePerGas := Some v; gasLimit := gasLimit tx;
     to := to tx; value := value tx; data := data tx;
     signature := signature tx |}.
Definition set_gasLimit (v : Z) (tx : Transaction) : Transaction :=
  {| chainId := chainId tx; nonce := nonce tx;
     maxPriorityFeePerGas := maxPriorityFeePerGas tx;
     maxFeePerGas := maxFeePerGas tx; gasLimit := v;
     to := to tx; value := value tx; data := data tx;
     signature := signature tx |}.

(** What the setter of [to] keeps: [null] for [null] and [undefined], the
    checksummed address for a string that is an address; any other value
    is refused. *)
Definition address_or_null (v : JSValue) : result (option string) :=
  match v with
  | JUndefined | JNull => Ok None
  | JString s => let* a := getAddress s in Ok (Some a)
  | _ => Throw (InvalidArgument "invalid address" "address")
  end.

(** [tx.to = v]. *)
Definition set_to (v : JSValue) (tx : Transaction) : result Transaction :=
  let* a := address_or_null v in
  Ok {| chainId := chainId tx; nonce := nonce tx;
        maxPriorityFeePerGas := maxPriorityFeePerGas tx;
        maxFeePerGas := maxFeePerGas tx; gasLimit := gasLimit tx;
        to := a; value := value tx; data := data tx;
        signature := signature tx |}.

Definition set_value (v : Z) (tx : Transaction) : Transaction :=
  {| chainId := chainId tx; nonce := nonce tx;
     maxPriorityFeePerGas := maxPriorityFeePerGas tx;
     maxFeePerGas := maxFeePerGas tx; gasLimit := gasLimit tx;
     to := to tx; value := v; data := data tx;
     signature := signature tx |}.

(** [tx.data = v]. *)
Definition set_data (v : JSValue) (tx : Transaction) : result Transaction :=
  let* d := hexlify v in
  Ok {| chainId := chainId tx; nonce := nonce tx;
        maxPriorityFeePerGas := maxPriorityFeePerGas tx;
        maxFeePerGas := maxFeePerGas tx; gasLimit := gasLimit tx;
        to := to tx; value := value tx; data := d;
        signature := signature tx |}.

(** What [Provider.getTransaction] and [Provider.getTransactionReceipt]
    resolve to, reduced to the property the class reads. *)
Record TransactionResponse : Type := { blockHash : option string }.
Record TransactionReceipt : Type := { status : option Z }.

(** The network as seen through [client.baseSepoliaProvider] at one
    moment: either call may find nothing ([null]) or be rejected. *)
Record Provider : Type := {
  getTransaction : string -> result (option TransactionResponse);
  getTransactionReceipt : string -> result (option TransactionReceipt)
}.
End ethers.

(** ** The class [Transfer] *)

(** The fields of an instance: the server model and the memoised
    transaction ([undefined] until the first decoding or until a signed
    transaction is attached). *)
Record Transfer : Type := {
  model : api.TransferModel;
  transaction : option ethers.Transaction
}.

Definition getId (t : Transfer) : string := api.transfer_id (model t).
Definition getNetworkId (t : Transfer) : string := api.network_id (model t).
Definition getWalletId (t : Transfer) : string := api.wallet_id (model t).
Definition getFromAddressId (t : Transfer) : string :=
  api.address_id (model t).
Definition getDestinationAddressId (t : Transfer) : string :=
  api.destination (model t).
Definition getAssetId (t : Transfer) : string := api.asset_id (model t).
Definition getUnsignedPayload (t : Transfer) : string :=
  api.unsigned_payload (model t).
Definition getSignedPayload (t : Transfer) : option string :=
  api.signed_payload (model t).
Definition getTransactionHash (t : Transfer) : option string :=
  api.transaction_hash (model t).

(** The operator [/] on BigInt values: the quotient rounded towards zero,
    a [RangeError] for a zero divisor. *)
Definition BigInt_div (a b : Z) : result Z :=
  if b =? 0 then Throw RangeError else Ok (Z.quot a b).

(** [BigInt(s)] for a string of the server model. *)
Definition BigInt_of_string (s : string) : result Z :=
  BigInt (JString (code_units s)).

(** [getAmount].  [WEI_PER_ETHER] is already a BigInt, which [BigInt]
    returns as it is. *)
Definition getAmount (t : Transfer) : result Z :=
  let* amount := BigInt_of_string (api.amount (model t)) in
  if String.eqb (getAssetId t) Coinbase.assetList_Eth then
    BigInt_div amount Coinbase.WEI_PER_ETHER
  else BigInt_of_string (api.amount (model t)).

(** The part of [getTransaction] between the two guards: the bytes of the
    payload, decoded as text and parsed as JSON.  The first error is the one
    of the [if (!rawPayload)] guard, the second the one of the [catch]. *)
Definition parsePayload (unsignedPayload : string) : result JSValue :=
  match String_match_pairs unsignedPayload with
  | None => Throw (InvalidUnsignedPayload "Unable to parse unsigned payload")
  | Some pairs =>
      let rawPayload := map parseInt16 pairs in
      let rawPayloadBytes := Uint8Array rawPayload in
      match JSON_parse (TextDecoder_decode rawPayloadBytes) with
      | Some parsedPayload => Ok parsedPayload
      | None =>
          Throw (InvalidUnsignedPayload "Unable to decode unsigned payload JSON")
      end
  end.

(** The eight assignments that follow the [try] block, in the order of the
    source; the first conversion or setter that throws ends the call. *)
Definition buildTransaction (parsedPayload : JSValue)
  : result ethers.Transaction :=
  let transaction := ethers.new_Transaction in
  let* v := Get parsedPayload "chainId" in
  let* n := BigInt v in
  let transaction := ethers.set_chainId n transaction in
  let* v := Get parsedPayload "nonce" in
  let* n := BigInt v in
  let* transaction := ethers.set_nonce n transaction in
  let* v := Get parsedPayload "maxPriorityFeePerGas" in
  let* n := BigInt v in
  let transaction := ethers.set_maxPriorityFeePerGas n transaction in
  let* v := Get parsedPayload "maxFeePerGas" in
  let* n := BigInt v in
  let transaction := ethers.set_maxFeePerGas n transaction in
  let* v := Get parsedPayload "gas" in
  let* n := BigInt v in
  let transaction := ethers.set_gasLimit n transaction in
  let* v := Get parsedPayload "to" in
  let* transaction := ethers.set_to v transaction in
  let* v := Get parsedPayload "value" in
  let* n := BigInt v in
  let transaction := ethers.set_value n transaction in
  let* v := Get parsedPayload "input" in
  let* transaction := ethers.set_data v transaction in
  Ok transaction.

(** [getTransaction]: the memoised transaction when there is one; otherwise
    the payload is decoded and, when that succeeds, the result is stored in
    the instance.  The second component is the instance after the call. *)
Definition getTransaction (t : Transfer)
  : result ethers.Transaction * Transfer :=
  match transaction t with
  | Some tx => (Ok tx, t)
  | None =>
      match (let* parsedPayload := parsePayload (getUnsignedPayload t) in
             buildTransaction parsedPayload) with
      | Ok tx => (Ok tx, {| model := model t; transaction := Some tx |})
      | Throw e => (Throw e, t)
      end
  end.

(** [setSignedTransaction]. *)
Definition setSignedTransaction (tx : ethers.Transaction) (t : Transfer)
  : Transfer :=
  {| model := model t; transaction := Some tx |}.

(** Truthiness of an optional string and of an optional Number. *)
Definition truthy_string (s : option string) : bool :=
  match s with
  | None => false
  | Some s => negb (String.eqb s "")
  end.

Definition truthy_number (n : option Z) : bool :=
  match n with
  | None => false
  | Some n => negb (n =? 0)
  end.

(** [getStatus], against the network as it answers during the call.
    [transactionReceipt?.status] is [undefined] when there is no receipt. *)
Definition getStatus (network : ethers.Provider) (t : Transfer)
  : result TransferStatus :=
  match getTransactionHash t with
  | None => Ok PENDING
  | Some transactionHash =>
      if negb (truthy_string (Some transactionHash)) then Ok PENDING
      else
        let* onchainTransaction :=
          ethers.getTransaction network transactionHash in
        match onchainTransaction with
        | None => Ok PENDING
        | Some onchain =>
            if negb (truthy_string (ethers.blockHash onchain))
            then Ok BROADCAST
            else
              let* transactionReceipt :=
                ethers.getTransactionReceipt network transactionHash in
              let status :=
                match transactionReceipt with
                | None => None
                | Some receipt => ethers.status receipt
                end in
              Ok (if truthy_number status then COMPLETE else FAILED)
        end
  end.

(** One round of polling: what the network answers during the call of
    [getStatus] and how long the call takes, in milliseconds.  For a
    transfer that has no transaction hash [getStatus] makes no call to the
    network, and the latency of a round is only the time the runtime takes
    to resume the caller. *)
Record Poll : Type := {
  network : ethers.Provider;
  latency : Z
}.

(** Modelled from the spec: [delay] of [./utils] is not among the sources;
    the wait loop of the spec suspends for the polling interval, so the
    clock moves on by the interval. *)
Definition delay (intervalMs : Z) (now : Z) : Z := now + intervalMs.

(** The loop of [wait] on a clock in milliseconds ([now] is what
    [Date.now()] returns at the head of the loop, [k] counts the rounds).
    The result is what the call settles to and the time at which it does;
    [None] when the fuel does not reach the end of the loop. *)
Fixpoint wait_loop (fuel : nat) (polls : nat -> Poll) (k : nat)
  (t : Transfer) (startTime now intervalMs timeoutMs : Z)
  : option (result Transfer * Z) :=
  match fuel with
  | O => None
  | S fuel' =>
      if now - startTime <? timeoutMs then
        let now := now + latency (polls k) in
        match getStatus (network (polls k)) t with
        | Throw e => Some (Throw e, now)
        | Ok status =>
            match status with
            | COMPLETE | FAILED => Some (Ok t, now)
            | _ =>
                wait_loop fuel' polls (S k) t startTime
                  (delay intervalMs now) intervalMs timeoutMs
            end
        end
      else Some (Throw (Error "Transfer timed out"), now)
  end.

(** [wait(intervalSeconds, timeoutSeconds)], called at time [startTime];
    the two arguments are given in milliseconds, that is as
    [intervalSeconds * 1000] and [timeoutSeconds * 1000]. *)
Definition wait (fuel : nat) (polls : nat -> Poll) (t : Transfer)
  (startTime intervalMs timeoutMs : Z) : option (result Transfer * Z) :=
  wait_loop fuel polls 0 t startTime startTime intervalMs timeoutMs.

(** The defaults of [wait]: 0.2 s and 10 s. *)
Definition default_intervalMs : Z := 200.
Definition default_timeoutMs : Z := 10000.

(** ** Test data *)

(** Two lowercase hexadecimal digits for each character. *)
Definition hex_digit (n : N) : ascii :=
  ascii_of_N (if (n <? 10)%N then 48 + n else 87 + n).

Fixpoint hex (s : string) : string :=
  match s with
  | EmptyString => EmptyString
  | String a r =>
      String (hex_digit (N_of_ascii a / 16)) (String (hex_digit (N_of_ascii a mod 16)) (hex r))
  end.

(** JSON text written with apostrophes for the double quotes. *)
Fixpoint json (s : string) : string :=
  match s with
  | EmptyString => EmptyString
  | String a r =>
      String (if Ascii.eqb a "'"%char then ascii_of_N 34 else a) (json r)
  end.

Definition transfer_of (asset amount payload : string)
  (hash : option string) : Transfer :=
  {| model := {| api.transfer_id := "transfer-1";
                 api.network_id := "base-sepolia";
                 api.wallet_id := "wallet-1";
                 api.address_id := "0x1111111111111111111111111111111111111111";
                 api.destination := "0x4d9e4f3f4d1a8b5f4f7b1f5b5c7b8d6b2b3b1b0b";
                 api.asset_id := asset;
                 api.amount := amount;
                 api.unsigned_payload := payload;
                 api.signed_payload := None;
                 api.transaction_hash := hash |};
     transaction := None |}.

Definition sample_json : string :=
  json "{'chainId':'0x14a34','nonce':'0x0','maxPriorityFeePerGas':'0xf4240','maxFeePerGas':'0xf4240','gas':'0x5208','to':'0x4d9e4f3f4d1a8b5f4f7b1f5b5c7b8d6b2b3b1b0b','value':'0x2386f26fc10000','input':'0x'}".

(** A network where the transaction is in a block and no receipt can be
    had yet. *)
Definition block_without_receipt : ethers.Provider :=
  {| ethers.getTransaction :=
       fun _ => Ok (Some {| ethers.blockHash := Some "0xb10c"%string |});
     ethers.getTransactionReceipt := fun _ => Ok None |}.

Definition signed_by (sig : string) : ethers.Transaction :=
  {| ethers.chainId := 84532; ethers.nonce := 0;
     ethers.maxPriorityFeePerGas := Some 1000000;
     ethers.maxFeePerGas := Some 1000000; ethers.gasLimit := 21000;
     ethers.to := Some "0x4D9E4F3f4D1A8B5F4f7b1F5b5C7b8d6b2B3b1b0b"%string;
     ethers.value := 10000000000000000;
     ethers.data := "0x"%string;
     ethers.signature := Some sig |}.

(** The instance after [n] further calls of [getTransaction]. *)
Fixpoint after_calls (n : nat) (t : Transfer) : Transfer :=
  match n with
  | O => t
  | S n' => snd (getTransaction (after_calls n' t))
  end.

(** Rounds of polling that all take [ms] milliseconds. *)
Definition steady_polls (ms : Z) : nat -> Poll :=
  fun _ => {| network := block_without_receipt; latency := ms |}.

(** The time at which round [k] of [wait] starts when no earlier round
    ended the call. *)
Fixpoint poll_start (polls : nat -> Poll) (intervalMs startTime : Z)
  (k : nat) : Z :=
  match k with
  | O => startTime
  | S k' =>
      delay intervalMs
        (poll_start polls intervalMs startTime k' + latency (polls k'))
  end.

(** The status calls of all rounds return a state that is not terminal. *)
Definition never_terminal (polls : nat -> Poll) (t : Transfer) : Prop :=
  forall k : nat,
    getStatus (network (polls k)) t = Ok PENDING
    \/ getStatus (network (polls k)) t = Ok BROADCAST.

Definition terminal_at (polls : nat -> Poll) (t : Transfer) (k : nat) : Prop :=
  getStatus (network (polls k)) t = Ok COMPLETE
  \/ getStatus (network (polls k)) t = Ok FAILED.

Definition second_transfer : Transfer :=
  {| model := {| api.transfer_id := "transfer-2";
                 api.network_id := "base-sepolia";
                 api.wallet_id := "wallet-1";
                 api.address_id := "0x1111111111111111111111111111111111111111";
                 api.destination := "0x4d9e4f3f4d1a8b5f4f7b1f5b5c7b8d6b2b3b1b0b";
                 api.asset_id := "eth";
                 api.amount := "1";
                 api.unsigned_payload := hex sample_json;
                 api.signed_payload := None;
                 api.transaction_hash := None |};
     transaction := None |}.

(** The properties of a payload that [getTransaction] converts with
    [BigInt]. *)
Definition numeric_fields : list string :=
  ["chainId"; "nonce"; "maxPriorityFeePerGas"; "maxFeePerGas"; "gas";
   "value"]%string.

(** The object that [sample_json] parses to, and its numeric fields. *)
Definition sample_properties : list (utf16 * JSValue) :=
  Eval vm_compute in
    match parsePayload (hex sample_json) with
    | Ok (JObject props) => props
    | _ => []
    end.

(** A payload whose fields are JSON number literals. *)
Definition literal_json : string :=
  json "{'chainId':84532,'nonce':0,'maxPriorityFeePerGas':1000000,'maxFeePerGas':1000000,'gas':21000,'to':'0x4d9e4f3f4d1a8b5f4f7b1f5b5c7b8d6b2b3b1b0b','value':9007199254740993,'input':'0x'}".

(** The decimal text of an integer and the [0x] text of a natural number,
    as the Standard Library prints them. *)
Definition decimal_text (z : Z) : string :=
  DecimalString.NilZero.string_of_int (Z.to_int z).

Definition hex_text (n : N) : string :=
  String "0" (String "x"
    (HexadecimalString.NilZero.string_of_uint (N.to_hex_uint n))).

(** ** Further methods of the class *)

(** What a template literal writes for an optional string: the string, or
    the text "undefined". *)
Definition template_text (s : option string) : string :=
  match s with
  | Some s => s
  | None => "undefined"
  end.

(** [getTransactionLink]. *)
Definition getTransactionLink (t : Transfer) : string :=
  ("https://sepolia.basescan.org/tx/"
   ++ template_text (getTransactionHash t))%string.

(** The two methods that change an instance, and a sequence of calls of
    them. *)
Inductive Call : Type :=
| CallGetTransaction
| CallSetSignedTransaction (tx : ethers.Transaction).

Definition call (t : Transfer) (c : Call) : Transfer :=
  match c with
  | CallGetTransaction => snd (getTransaction t)
  | CallSetSignedTransaction tx => setSignedTransaction tx t
  end.

Definition calls (cs : list Call) (t : Transfer) : Transfer :=
  fold_left call cs t.

(** The instance with another unsigned payload in its model and nothing
    memoised. *)
Definition with_payload (payload : string) (t : Transfer) : Transfer :=
  {| model :=
       {| api.transfer_id := api.transfer_id (model t);
          api.network_id := api.network_id (model t);
          api.wallet_id := api.wallet_id (model t);
          api.address_id := api.address_id (model t);
          api.destination := api.destination (model t);
          api.asset_id := api.asset_id (model t);
          api.amount := api.amount (model t);
          api.unsigned_payload := payload;
          api.signed_payload := api.signed_payload (model t);
          api.transaction_hash := api.transaction_hash (model t) |};
     transaction := None |}.

(** The errors of the runtime, as opposed to the ones the class builds. *)
Definition native_error (e : JSError) : Prop :=
  e = TypeError \/ e = SyntaxError \/ e = RangeError.

(** A text without the line terminators that [.] does not match. *)
Definition no_line_terminator (s : string) : Prop :=
  forall a, In a (list_ascii_of_string s) -> isLineTerminator a = false.

(** A text of characters below 128. *)
Definition ascii_only (s : string) : Prop :=
  forall a, In a (list_ascii_of_string s) -> (N_of_ascii a < 128)%N.

(** A status call that lets the loop of [wait] go on. *)
Definition goes_on (polls : nat -> Poll) (t : Transfer) (k : nat) : Prop :=
  getStatus (network (polls k)) t = Ok PENDING
  \/ getStatus (network (polls k)) t = Ok BROADCAST.

(** A network whose calls are rejected. *)
Definition unreachable : ethers.Provider :=
  {| ethers.getTransaction := fun _ => Throw (Error "network error");
     ethers.getTransactionReceipt := fun _ => Throw (Error "network error") |}.

(** Rounds of polling where the network cannot be reached from round [k]
    on. *)
Definition failing_from (k : nat) : nat -> Poll :=
  fun j => {| network := if (j <? k)%nat then
                           {| ethers.getTransaction :=
                                fun _ => Ok None;
                              ethers.getTransactionReceipt :=
                                fun _ => Ok None |}
                         else unreachable;
              latency := 50 |}.

(** A network where the transaction is in a block and its receipt
    reports success. *)
Definition confirmed : ethers.Provider :=
  {| ethers.getTransaction :=
       fun _ => Ok (Some {| ethers.blockHash := Some "0xb10c"%string |});
     ethers.getTransactionReceipt :=
       fun _ => Ok (Some {| ethers.status := Some 1 |}) |}.

(** Rounds of polling where the transaction is seen without a block
    before round [k] and confirmed from round [k] on. *)
Definition mined_from (k : nat) : nat -> Poll :=
  fun j => {| network := if (j <? k)%nat then
                           {| ethers.getTransaction :=
                                fun _ => Ok (Some {| ethers.blockHash := None |});
                              ethers.getTransactionReceipt :=
                                fun _ => Ok None |}
                         else confirmed;
              latency := 50 |}.

(** The sample transfer once broadcast. *)
Definition broadcast_transfer : Transfer :=
  transfer_of "eth" "1" (hex sample_json) (Some "0xfeed"%string).

(** A network where the transaction is known and not yet in a block. *)
Definition unmined : ethers.Provider :=
  {| ethers.getTransaction :=
       fun _ => Ok (Some {| ethers.blockHash := None |});
     ethers.getTransactionReceipt := fun _ => Ok None |}.

(** Rounds of polling that all find the transaction outside a block, after
    [ms] milliseconds. *)
Definition unmined_polls (ms : Z) : nat -> Poll :=
  fun _ => {| network := unmined; latency := ms |}.

(** A payload whose numeric fields are texts of integers above 2^53, but
    for the nonce, which is the largest integer that the setter takes; the
    address is written with its checksum and the data in upper case. *)
Definition wide_json : string :=
  json "{'chainId':'0x20000000000001','nonce':'9007199254740991','maxPriorityFeePerGas':'0x40000000000001','maxFeePerGas':'18446744073709551617','gas':'0x20000000000003','to':'0x5aAeb6053F3E94C9b9A09f33669435E7Ef1BeAed','value':'0xde0b6b3a7640000001','input':'0xA9059CBB'}".

Definition wide_properties : list (utf16 * JSValue) :=
  Eval vm_compute in
    match parsePayload (hex wide_json) with
    | Ok (JObject props) => props
    | _ => []
    end.

Definition wide_values (key : string) : Z :=
  if String.eqb key "chainId" then 9007199254740993
  else if String.eqb key "nonce" then 9007199254740991
  else if String.eqb key "maxPriorityFeePerGas" then 18014398509481985
  else if String.eqb key "maxFeePerGas" then 18446744073709551617
  else if String.eqb key "gas" then 9007199254740995
  else 4096000000000000000001.

(** The sample payload with the nonce 2^53. *)
Definition overflow_json : string :=
  json "{'chainId':'0x14a34','nonce':'0x20000000000000','maxPriorityFeePerGas':'0xf4240','maxFeePerGas':'0xf4240','gas':'0x5208','to':'0x4d9e4f3f4d1a8b5f4f7b1f5b5c7b8d6b2b3b1b0b','value':'0x2386f26fc10000','input':'0x'}".

(** What the sample payload decodes to. *)
Definition sample_transaction : ethers.Transaction :=
  Eval vm_compute in
    match fst (getTransaction (transfer_of "eth" "1" (hex sample_json) None))
    with
    | Ok tx => tx
    | Throw _ => ethers.new_Transaction
    end.

(** ** Notions used in the statements *)

(** Code units below 256 back as a [string], to show a result. *)
Definition text_of (s : utf16) : string :=
  string_of_list_ascii (map ascii_of_N s).

(** The Number that the literal [digits]e[exponent] denotes. *)
Definition Number_of (digits : string) (exponent : Z) : spec_float :=
  number_value false (code_units digits) exponent.

(** A parser result that is not [OutOfFuel] and whose rest is no longer
    than the input. *)
Definition within {A : Type} (s : utf16) (r : parsed A) : Prop :=
  match r with
  | Parsed _ rest => (List.length rest <= List.length s)%nat
  | Invalid => True
  | OutOfFuel => False
  end.

(** A character that [trim] leaves in place. *)
Definition not_space (c : N) : Prop := isStrWhiteSpaceChar c = false.

(** The text of an integer: decimal, or hexadecimal for one that is not
    negative. *)
Definition integer_text (z : Z) (s : string) : Prop :=
  s = decimal_text z \/ (0 <= z /\ s = hex_text (Z.to_N z)).

(** The property [key] of the object is a string with the text of the
    integer [z key]. *)
Definition holds_text (props : list (utf16 * JSValue)) (z : string -> Z)
  (key : string) : Prop :=
  exists s : string,
    own_property (code_units key) props = Some (JString (code_units s))
    /\ integer_text (z key) s.

(** The errors with which the setters of [ethers.Transaction] refuse a
    value. *)
Definition refused_by_ethers (e : JSError) : Prop :=
  e = InvalidArgument "overflow" "value"
  \/ e = InvalidArgument "invalid address" "address"
  \/ e = InvalidArgument "bad address checksum" "address"
  \/ e = InvalidArgument "bad icap checksum" "address"
  \/ e = InvalidArgument "invalid BytesLike value" "value".

(** What reading the property [key] of an object gives. *)
Definition property (props : list (utf16 * JSValue)) (key : string)
  : JSValue :=
  match own_property (code_units key) props with
  | Some x => x
  | None => JUndefined
  end.

(** * Properties *)

(** ** The runtime model on known values *)

Example NumberToString_samples :
  map (fun x => text_of (NumberToString x))
    [Number_of "1" (-1); Number_of "15" (-1); Number_of "1" 21;
     Number_of "1152921504606846976" 0; Number_of "5" (-324);
     Number_of "17976931348623157" 292; Number_of "1" (-7);
     Number_of "9007199254740993" 0]
  = ["0.1"; "1.5"; "1e+21"; "1152921504606847000"; "5e-324";
     "1.7976931348623157e+308"; "1e-7"; "9007199254740992"]%string.
Proof. vm_compute. reflexivity. Qed.

Example BigInt_samples :
  map BigInt
    [JString (code_units "0x14a34"); JString (code_units " -12 ");
     JString []; JString (code_units "1e3"); JString (code_units "0x");
     JNumber (Number_of "1152921504606846976" 0);
     JNumber (Number_of "15" (-1)); JBool true; JNull; JUndefined;
     JArray []; JArray [JNumber (Number_of "1152921504606846976" 0)];
     JObject []]
  = [Ok 84532; Ok (-12); Ok 0; Throw SyntaxError; Throw SyntaxError;
     Ok 1152921504606846976; Throw RangeError; Ok 1; Throw TypeError;
     Throw TypeError; Ok 0; Ok 1152921504606847000; Throw SyntaxError].
Proof. vm_compute. reflexivity. Qed.

Example parseInt16_samples :
  map parseInt16 ["7b"; "0x"; "-5"; " 9"; "zz"; "7z"; "FF"]%string
  = [Some 123; None; Some (-5); Some 9; None; Some 7; Some 255]
  /\ Uint8Array [Some 123; None; Some (-5)] = [123; 0; 251]%N.
Proof. split; reflexivity. Qed.

Example match_pairs_samples :
  String_match_pairs "0x1" = Some ["0x"%string]
  /\ String_match_pairs "7b7d" = Some ["7b"; "7d"]%string
  /\ String_match_pairs "7" = None
  /\ String_match_pairs "" = None.
Proof. repeat split. Qed.

Example TextDecoder_samples :
  TextDecoder_decode [0xEF; 0xBB; 0xBF; 0x7B; 0xE2; 0x82; 0xAC; 0xF0; 0x9F;
                      0x98; 0x80; 0xC0; 0x7D; 0xE2]%N
  = [0x7B; 0x20AC; 0xD83D; 0xDE00; 0xFFFD; 0x7D; 0xFFFD]%N.
Proof. reflexivity. Qed.

Example JSON_parse_samples :
  map (fun s => JSON_parse (code_units (json s)))
    ["{}"; " [1, true, null, 'a\u0041'] "; "{'a':1,'a':'x'}"; "01"; "1.";
     "[1,]"; "{'a':1,}"; "nul"; ""]%string
  = [Some (JObject []);
     Some (JArray [JNumber (Number_of "1" 0); JBool true; JNull;
                   JString [97; 65]%N]);
     Some (JObject [([97%N], JNumber (Number_of "1" 0));
                    ([97%N], JString [120%N])]);
     None; None; None; None; None; None]
  /\ Get (JObject [([97%N], JNumber (Number_of "1" 0));
                   ([97%N], JString [120%N])]) "a"
     = Ok (JString [120%N]).
Proof. split; vm_compute; reflexivity. Qed.

Example keccak256_samples :
  ethers.keccak256 []
  = [0xc5; 0xd2; 0x46; 0x01; 0x86; 0xf7; 0x23; 0x3c;
     0x92; 0x7e; 0x7d; 0xb2; 0xdc; 0xc7; 0x03; 0xc0;
     0xe5; 0x00; 0xb6; 0x53; 0xca; 0x82; 0x27; 0x3b;
     0x7b; 0xfa; 0xd8; 0x04; 0x5d; 0x85; 0xa4; 0x70]%N
  /\ ethers.keccak256 (code_units "abc")
     = [0x4e; 0x03; 0x65; 0x7a; 0xea; 0x45; 0xa9; 0x4f;
        0xc7; 0xd4; 0x7b; 0xa8; 0x26; 0xc8; 0xd6; 0x67;
        0xc0; 0xd1; 0xe6; 0xe3; 0x3a; 0x64; 0xa0; 0x36;
        0xec; 0x44; 0xf5; 0x8f; 0xa1; 0x2d; 0x6c; 0x45]%N
  /\ ethers.keccak256 (repeat 97%N 136)
     = [0xa6; 0xc4; 0xd4; 0x03; 0x27; 0x9f; 0xe3; 0xe0;
        0xaf; 0x03; 0x72; 0x9c; 0xaa; 0xda; 0x83; 0x74;
        0xb5; 0xca; 0x54; 0xd8; 0x06; 0x53; 0x29; 0xa3;
        0xeb; 0xca; 0xeb; 0x4b; 0x60; 0xaa; 0x38; 0x6e]%N.
Proof. repeat split; vm_compute; reflexivity. Qed.

Example getAddress_samples :
  ethers.getAddress (code_units "0x4d9e4f3f4d1a8b5f4f7b1f5b5c7b8d6b2b3b1b0b")
  = Ok "0x4D9E4F3f4D1A8B5F4f7b1F5b5C7b8d6b2B3b1b0b"%string
  /\ ethers.getAddress (code_units "5aaeb6053f3e94c9b9a09f33669435e7ef1beaed")
     = Ok "0x5aAeb6053F3E94C9b9A09f33669435E7Ef1BeAed"%string
  /\ ethers.getAddress (code_units "0xFB6916095CA1DF60BB79CE92CE3EA74C37C5D359")
     = Ok "0xfB6916095ca1df60bB79Ce92cE3Ea74c37c5d359"%string
  /\ ethers.getAddress (code_units "0x5aAeb6053F3E94C9b9A09f33669435E7Ef1BeAed")
     = Ok "0x5aAeb6053F3E94C9b9A09f33669435E7Ef1BeAed"%string
  /\ ethers.getAddress (code_units "0x5aaeb6053F3E94C9b9A09f33669435E7Ef1BeAed")
     = Throw (InvalidArgument "bad address checksum" "address")
  /\ ethers.getAddress (code_units "XE65GB6LDNXYOFTX0NSV3FUWKOWIXAMJK36")
     = Ok "0x8ba1f109551bD432803012645Ac136ddd64DBA72"%string
  /\ ethers.getAddress (code_units "XE66GB6LDNXYOFTX0NSV3FUWKOWIXAMJK36")
     = Throw (InvalidArgument "bad icap checksum" "address")
  /\ ethers.getAddress (code_units "0x4d9e")
     = Throw (InvalidArgument "invalid address" "address")
  /\ ethers.address_or_null JUndefined = Ok None
  /\ ethers.address_or_null JNull = Ok None
  /\ ethers.address_or_null (JNumber (Number_of "1" 0))
     = Throw (InvalidArgument "invalid address" "address").
Proof. repeat split; vm_compute; reflexivity. Qed.

Example hexlify_samples :
  ethers.hexlify (JString (code_units "0x")) = Ok "0x"%string
  /\ ethers.hexlify (JString (code_units "0xA9059CBB"))
     = Ok "0xa9059cbb"%string
  /\ ethers.hexlify (JString (code_units "0xabc"))
     = Throw (InvalidArgument "invalid BytesLike value" "value")
  /\ ethers.hexlify (JString (code_units "a9059cbb"))
     = Throw (InvalidArgument "invalid BytesLike value" "value")
  /\ ethers.hexlify JUndefined
     = Throw (InvalidArgument "invalid BytesLike value" "value")
  /\ ethers.getNumber 9007199254740991 = Ok 9007199254740991
  /\ ethers.getNumber 9007199254740992
     = Throw (InvalidArgument "overflow" "value").
Proof. repeat split; vm_compute; reflexivity. Qed.

(** The setters on whole payloads: a payload without [to] gives a
    transaction to nobody, a payload without [input] is refused. *)
Example getTransaction_setter_samples :
  fst (getTransaction
         (transfer_of "eth" "1"
            (hex (json "{'chainId':'0x1','nonce':'0x0','maxPriorityFeePerGas':'0x1','maxFeePerGas':'0x1','gas':'0x1','value':'0x0','input':'0x'}"))
            None))
  = Ok {| ethers.chainId := 1; ethers.nonce := 0;
          ethers.maxPriorityFeePerGas := Some 1;
          ethers.maxFeePerGas := Some 1; ethers.gasLimit := 1;
          ethers.to := None; ethers.value := 0; ethers.data := "0x"%string;
          ethers.signature := None |}
  /\ fst (getTransaction
            (transfer_of "eth" "1"
               (hex (json "{'chainId':'0x1','nonce':'0x0','maxPriorityFeePerGas':'0x1','maxFeePerGas':'0x1','gas':'0x1','to':null,'value':'0x0'}"))
               None))
     = Throw (InvalidArgument "invalid BytesLike value" "value")
  /\ fst (getTransaction
            (transfer_of "eth" "1"
               (hex (json "{'chainId':'0x1','nonce':'0x0','maxPriorityFeePerGas':'0x1','maxFeePerGas':'0x1','gas':'0x1','to':'0x1234','value':'0x0','input':'0x'}"))
               None))
     = Throw (InvalidArgument "invalid address" "address").
Proof. repeat split; vm_compute; reflexivity. Qed.

(** ** [JSON.parse] never runs out of fuel *)

Lemma skip_ws_length (s : utf16) :
  (List.length (skip_ws s) <= List.length s)%nat.
Proof.
  induction s as [|c r IH]; cbn [skip_ws]; [lia|].
  destruct (isJSONWhiteSpace c); cbn [List.length] in *; lia.
Qed.

Lemma skip_ws_cons (s r : utf16) (c : N) :
  skip_ws s = c :: r -> (S (List.length r) <= List.length s)%nat.
Proof.
  intros H. pose proof (skip_ws_length s) as L. rewrite H in L. exact L.
Qed.

Lemma span_digits_length (s d rest : utf16) :
  span_digits s = (d, rest) ->
  (List.length rest + List.length d = List.length s)%nat.
Proof.
  revert d rest. induction s as [|c r IH]; intros d rest; cbn [span_digits].
  - intros [= <- <-]. reflexivity.
  - destruct (isDigit c).
    + destruct (span_digits r) as [d' rest'] eqn:E.
      intros [= <- <-]. specialize (IH _ _ eq_refl). cbn [List.length]. lia.
    + intros [= <- <-]. cbn [List.length]. lia.
Qed.

Lemma strip_prefix_length (p s rest : utf16) :
  strip_prefix p s = Some rest -> (List.length rest <= List.length s)%nat.
Proof.
  revert s. induction p as [|a p IH]; intros [|b s]; cbn [strip_prefix];
    try discriminate.
  - intros [= <-]. lia.
  - intros [= <-]. lia.
  - destruct (a =? b)%N; [|discriminate].
    intros H%IH. cbn [List.length]. lia.
Qed.

Lemma parse_string_body_within (n : nat) (s acc : utf16) :
  (List.length s <= n)%nat -> within s (parse_string_body s acc).
Proof.
  revert s acc. induction n as [|n IH]; intros s acc Hn.
  - destruct s; [exact I | cbn [List.length] in Hn; lia].
  - destruct s as [|c r]; [exact I|]. cbn [parse_string_body].
    cbn [List.length] in Hn.
    assert (Hstep : forall (t u : utf16),
               (List.length t <= List.length r)%nat ->
               within (c :: r) (parse_string_body t u)).
    { intros t u Ht.
      assert (W := IH t u ltac:(lia)).
      destruct (parse_string_body t u); cbn [within List.length] in *; lia. }
    destruct (c =? 34)%N; [cbn [within List.length]; lia|].
    destruct (c =? 92)%N.
    + destruct r as [|e r1]; [exact I|].
      assert (H1 : forall u, within (c :: e :: r1) (parse_string_body r1 u))
        by (intros u; apply Hstep; cbn [List.length]; lia).
      destruct ((e =? 34) || (e =? 92) || (e =? 47))%N; [apply H1|].
      repeat (match goal with
              | |- within _ (if ?b then _ else _) => destruct b; [apply H1|]
              end).
      destruct (e =? 117)%N; [|exact I].
      destruct r1 as [|h1 [|h2 [|h3 [|h4 r2]]]]; try exact I.
      destruct (digits_value 16 0 [h1; h2; h3; h4]); [|exact I].
      apply Hstep. cbn [List.length]. lia.
    + destruct (c <? 32)%N; [exact I|]. apply Hstep. lia.
Qed.

Lemma number_sign_length (s rest : utf16) (neg : bool) :
  number_sign s = (neg, rest) -> (List.length rest <= List.length s)%nat.
Proof.
  destruct s as [|c r]; cbn [number_sign].
  - intros [= _ <-]. lia.
  - destruct (c =? 45)%N; intros [= _ <-]; cbn [List.length]; lia.
Qed.

Lemma number_int_length (s int rest : utf16) :
  number_int s = (int, rest) -> (List.length rest <= List.length s)%nat.
Proof.
  destruct s as [|c r]; cbn [number_int].
  - intros [= _ <-]. lia.
  - destruct (c =? 48)%N.
    + intros [= _ <-]. cbn [List.length]. lia.
    + intros H%span_digits_length. lia.
Qed.

Lemma number_frac_length (s f rest : utf16) :
  number_frac s = Some (f, rest) ->
  (List.length rest <= List.length s)%nat.
Proof.
  destruct s as [|c r]; cbn [number_frac].
  - intros [= _ <-]. lia.
  - destruct (c =? 46)%N.
    + destruct (span_digits r) as [[|d ds] rest'] eqn:E; [discriminate|].
      intros [= _ <-]. apply span_digits_length in E.
      cbn [List.length] in *. lia.
    + intros [= _ <-]. lia.
Qed.

Lemma exponent_sign_length (s rest : utf16) (neg : bool) :
  exponent_sign s = (neg, rest) -> (List.length rest <= List.length s)%nat.
Proof.
  destruct s as [|g r]; cbn [exponent_sign].
  - intros [= _ <-]. lia.
  - destruct (g =? 45)%N; [|destruct (g =? 43)%N];
      intros [= _ <-]; cbn [List.length]; lia.
Qed.

Lemma number_exp_length (s rest : utf16) (e : Z) :
  number_exp s = Some (e, rest) -> (List.length rest <= List.length s)%nat.
Proof.
  destruct s as [|c r]; cbn [number_exp].
  - intros [= _ <-]. lia.
  - destruct ((c =? 101) || (c =? 69))%N.
    + destruct (exponent_sign r) as [eneg r0] eqn:E0.
      apply exponent_sign_length in E0.
      destruct (span_digits r0) as [[|d ds] rest'] eqn:E; [discriminate|].
      destruct (digits_value 10 0 (d :: ds)); [|discriminate].
      intros [= _ <-]. apply span_digits_length in E.
      cbn [List.length] in *. lia.
    + intros [= _ <-]. lia.
Qed.

Lemma parse_number_within (s : utf16) : within s (parse_number s).
Proof.
  unfold parse_number.
  destruct (number_sign s) as [neg s1] eqn:E1.
  destruct (number_int s1) as [[|d int] s2] eqn:E2; [exact I|].
  destruct (number_frac s2) as [[f s3]|] eqn:E3; [|exact I].
  destruct (number_exp s3) as [[e rest]|] eqn:E4; [|exact I].
  apply number_sign_length in E1. apply number_int_length in E2.
  apply number_frac_length in E3. apply number_exp_length in E4.
  cbn [within]. lia.
Qed.

Lemma within_shorter {A : Type} (s s' : utf16) (r : parsed A) :
  (List.length s' <= List.length s)%nat -> within s' r -> within s r.
Proof. destruct r; cbn [within]; [lia | trivial | trivial]. Qed.

Lemma parse_fuel_enough (fuel : nat) :
  (forall s, (2 * List.length s + 1 <= fuel)%nat ->
             within s (parse_value fuel s))
  /\ (forall acc s, (2 * List.length s + 2 <= fuel)%nat ->
                    within s (parse_elements fuel acc s))
  /\ (forall acc s, (2 * List.length s + 2 <= fuel)%nat ->
                    within s (parse_members fuel acc s)).
Proof.
  induction fuel as [|fuel [IHv [IHe IHm]]].
  - repeat split; intros; lia.
  - split; [|split].
    + intros s Hf. cbn [parse_value].
      destruct (skip_ws s) as [|c r] eqn:Es; [exact I|].
      apply skip_ws_cons in Es.
      destruct (c =? 123)%N.
      { destruct (skip_ws r) as [|c' r'] eqn:Er; [exact I|].
        apply skip_ws_cons in Er.
        destruct (c' =? 125)%N; [cbn [within]; lia|].
        apply (within_shorter s r); [lia|]. apply IHm. lia. }
      destruct (c =? 91)%N.
      { destruct (skip_ws r) as [|c' r'] eqn:Er; [exact I|].
        apply skip_ws_cons in Er.
        destruct (c' =? 93)%N; [cbn [within]; lia|].
        apply (within_shorter s r); [lia|]. apply IHe. lia. }
      destruct (c =? 34)%N.
      { pose proof (parse_string_body_within _ r [] (le_n _)) as W.
        destruct (parse_string_body r []); cbn [within] in *;
          [lia | trivial | trivial]. }
      destruct ((c =? 45)%N || isDigit c).
      { pose proof (parse_number_within (c :: r)) as W.
        destruct (parse_number (c :: r)); cbn [within List.length] in *;
          [lia | trivial | trivial]. }
      destruct (strip_prefix (code_units "true") (c :: r)) eqn:E1.
      { apply strip_prefix_length in E1.
        cbn [within List.length] in *. lia. }
      destruct (strip_prefix (code_units "false") (c :: r)) eqn:E2.
      { apply strip_prefix_length in E2.
        cbn [within List.length] in *. lia. }
      destruct (strip_prefix (code_units "null") (c :: r)) eqn:E3;
        [|exact I].
      apply strip_prefix_length in E3. cbn [within List.length] in *. lia.
    + intros acc s Hf. cbn [parse_elements].
      pose proof (IHv s ltac:(lia)) as W.
      destruct (parse_value fuel s) as [v rest| |]; cbn [within] in W;
        [|exact I|contradiction].
      destruct (skip_ws rest) as [|c r] eqn:Er; [exact I|].
      apply skip_ws_cons in Er.
      destruct (c =? 44)%N.
      { apply (within_shorter s r); [lia|]. apply IHe. lia. }
      destruct (c =? 93)%N; [cbn [within]; lia | exact I].
    + intros acc s Hf. cbn [parse_members].
      destruct (skip_ws s) as [|q r] eqn:Es; [exact I|].
      apply skip_ws_cons in Es.
      destruct (q =? 34)%N; [|exact I].
      pose proof (parse_string_body_within _ r [] (le_n _)) as W.
      destruct (parse_string_body r []) as [key rest| |]; cbn [within] in W;
        [|exact I|contradiction].
      destruct (skip_ws rest) as [|c r1] eqn:Er; [exact I|].
      apply skip_ws_cons in Er.
      destruct (c =? 58)%N; [|exact I].
      pose proof (IHv r1 ltac:(lia)) as W1.
      destruct (parse_value fuel r1) as [v rest'| |]; cbn [within] in W1;
        [|exact I|contradiction].
      destruct (skip_ws rest') as [|d r2] eqn:Er2; [exact I|].
      apply skip_ws_cons in Er2.
      destruct (d =? 44)%N.
      { apply (within_shorter s r2); [lia|]. apply IHm. lia. }
      destruct (d =? 125)%N; [cbn [within]; lia | exact I].
Qed.

(** The fuel that [JSON_parse] gives is enough for every text, so [None]
    is always the [SyntaxError] of an invalid text. *)
Lemma JSON_parse_fuel (text : utf16) :
  parse_value (2 * List.length text + 2) text <> OutOfFuel.
Proof.
  intros H.
  pose proof (proj1 (parse_fuel_enough (2 * List.length text + 2)) text
                ltac:(lia)) as W.
  rewrite H in W. exact W.
Qed.

(** ** Integer texts are read exactly *)

Lemma code_units_String (a : ascii) (s : string) :
  code_units (String a s) = N_of_ascii a :: code_units s.
Proof. reflexivity. Qed.

Ltac read_digit :=
  rewrite code_units_String; cbn [digits_value];
  match goal with
  | |- context [digit_of ?r (N_of_ascii ?a)] =>
      let v := eval vm_compute in (digit_of r (N_of_ascii a)) in
      change (digit_of r (N_of_ascii a)) with v
  end; cbv iota.

Lemma digits_value_dec_acc (d : Decimal.uint) (p : positive) :
  digits_value 10 (Z.pos p)
    (code_units (DecimalString.NilEmpty.string_of_uint d))
  = Some (Z.pos (Pos.of_uint_acc d p)).
Proof.
  revert p; induction d; intros p;
    cbn [DecimalString.NilEmpty.string_of_uint Pos.of_uint_acc];
    try reflexivity; read_digit;
    match goal with
    | |- digits_value 10 ?a _ = Some (Z.pos (Pos.of_uint_acc _ ?q)) =>
        replace a with (Z.pos q) by lia
    end; apply IHd.
Qed.

Lemma digits_value_dec (d : Decimal.uint) :
  digits_value 10 0 (code_units (DecimalString.NilEmpty.string_of_uint d))
  = Some (Z.of_N (Pos.of_uint d)).
Proof.
  induction d;
    cbn [DecimalString.NilEmpty.string_of_uint Pos.of_uint];
    try reflexivity; read_digit;
    try (change (0 * 10 + 0) with 0; exact IHd);
    apply digits_value_dec_acc.
Qed.

Lemma digits_value_hex_acc (d : Hexadecimal.uint) (p : positive) :
  digits_value 16 (Z.pos p)
    (code_units (HexadecimalString.NilEmpty.string_of_uint d))
  = Some (Z.pos (Pos.of_hex_uint_acc d p)).
Proof.
  revert p; induction d; intros p;
    cbn [HexadecimalString.NilEmpty.string_of_uint Pos.of_hex_uint_acc];
    try reflexivity; read_digit;
    match goal with
    | |- digits_value 16 ?a _ = Some (Z.pos (Pos.of_hex_uint_acc _ ?q)) =>
        replace a with (Z.pos q) by lia
    end; apply IHd.
Qed.

Lemma digits_value_hex (d : Hexadecimal.uint) :
  digits_value 16 0 (code_units (HexadecimalString.NilEmpty.string_of_uint d))
  = Some (Z.of_N (Pos.of_hex_uint d)).
Proof.
  induction d;
    cbn [HexadecimalString.NilEmpty.string_of_uint Pos.of_hex_uint];
    try reflexivity; read_digit;
    try (change (0 * 16 + 0) with 0; exact IHd);
    apply digits_value_hex_acc.
Qed.

Lemma trimStart_not_space (l : utf16) : Forall not_space l -> trimStart l = l.
Proof.
  destruct 1 as [|c r Hc _]; [reflexivity|].
  cbn [trimStart]. now rewrite Hc.
Qed.

Lemma trim_not_space (l : utf16) : Forall not_space l -> trim l = l.
Proof.
  intros H. unfold trim.
  rewrite (trimStart_not_space l H).
  rewrite trimStart_not_space by now apply Forall_rev.
  apply rev_involutive.
Qed.

Lemma isDigit_range (c : N) : isDigit c = true -> (48 <= c <= 57)%N.
Proof.
  unfold isDigit. rewrite andb_true_iff, !N.leb_le. tauto.
Qed.

Ltac decide_tests :=
  repeat match goal with
         | |- context [(?a =? ?b)%N] => destruct (N.eqb_spec a b); try lia
         | |- context [(?a <=? ?b)%N] => destruct (N.leb_spec a b); try lia
         end.

Lemma isDigit_not_space (c : N) : isDigit c = true -> not_space c.
Proof.
  intros H%isDigit_range. unfold not_space, isStrWhiteSpaceChar.
  decide_tests; reflexivity.
Qed.

Lemma StringToBigInt_digits (l : utf16) :
  l <> [] -> Forall (fun c => isDigit c = true) l ->
  StringToBigInt l = digits_value 10 0 l.
Proof.
  intros Hne Hd. unfold StringToBigInt.
  rewrite trim_not_space
    by (eapply Forall_impl; [apply isDigit_not_space | exact Hd]).
  destruct l as [|c0 r0]; [contradiction|].
  pose proof (isDigit_range c0 (Forall_inv Hd)) as H0.
  destruct r0 as [|c1 r1].
  - decide_tests; reflexivity.
  - pose proof (isDigit_range c1 (Forall_inv (Forall_inv_tail Hd))) as H1.
    decide_tests; reflexivity.
Qed.

Lemma StringToBigInt_minus_digits (l : utf16) :
  l <> [] -> Forall (fun c => isDigit c = true) l ->
  StringToBigInt (45%N :: l) = option_map Z.opp (digits_value 10 0 l).
Proof.
  intros Hne Hd. unfold StringToBigInt.
  rewrite trim_not_space.
  - destruct l as [|c1 r1]; [contradiction|]. reflexivity.
  - constructor; [reflexivity|].
    eapply Forall_impl; [apply isDigit_not_space | exact Hd].
Qed.

Lemma StringToBigInt_0x (l : utf16) :
  l <> [] -> Forall not_space l ->
  StringToBigInt (48%N :: 120%N :: l) = digits_value 16 0 l.
Proof.
  intros Hne Hs. unfold StringToBigInt.
  rewrite trim_not_space by (repeat constructor; assumption).
  destruct l; [contradiction|]. reflexivity.
Qed.

Lemma decimal_digits_are_digits (d : Decimal.uint) :
  Forall (fun c => isDigit c = true)
    (code_units (DecimalString.NilEmpty.string_of_uint d)).
Proof.
  induction d; cbn [DecimalString.NilEmpty.string_of_uint];
    try (rewrite code_units_String); constructor;
    solve [reflexivity | assumption].
Qed.

Lemma hex_digits_not_space (d : Hexadecimal.uint) :
  Forall not_space (code_units (HexadecimalString.NilEmpty.string_of_uint d)).
Proof.
  induction d; cbn [HexadecimalString.NilEmpty.string_of_uint];
    try (rewrite code_units_String); constructor;
    solve [reflexivity | assumption].
Qed.

Lemma decimal_string_nonnil (d : Decimal.uint) :
  d <> Decimal.Nil ->
  DecimalString.NilZero.string_of_uint d
  = DecimalString.NilEmpty.string_of_uint d
  /\ code_units (DecimalString.NilEmpty.string_of_uint d) <> [].
Proof. destruct d; intros H; try contradiction; split; easy. Qed.

Lemma hex_string_nonnil (d : Hexadecimal.uint) :
  d <> Hexadecimal.Nil ->
  HexadecimalString.NilZero.string_of_uint d
  = HexadecimalString.NilEmpty.string_of_uint d
  /\ code_units (HexadecimalString.NilEmpty.string_of_uint d) <> [].
Proof. destruct d; intros H; try contradiction; split; easy. Qed.

Lemma StringToBigInt_pos (p : positive) :
  StringToBigInt
    (code_units (DecimalString.NilZero.string_of_uint (Pos.to_uint p)))
  = Some (Z.pos p).
Proof.
  destruct (decimal_string_nonnil _ (DecimalPos.Unsigned.to_uint_nonnil p))
    as [-> Hne].
  rewrite StringToBigInt_digits
    by (assumption || apply decimal_digits_are_digits).
  now rewrite digits_value_dec, DecimalPos.Unsigned.of_to.
Qed.

Lemma StringToBigInt_neg (p : positive) :
  StringToBigInt
    (45%N :: code_units (DecimalString.NilZero.string_of_uint (Pos.to_uint p)))
  = Some (Z.neg p).
Proof.
  destruct (decimal_string_nonnil _ (DecimalPos.Unsigned.to_uint_nonnil p))
    as [-> Hne].
  rewrite StringToBigInt_minus_digits
    by (assumption || apply decimal_digits_are_digits).
  now rewrite digits_value_dec, DecimalPos.Unsigned.of_to.
Qed.

(** [BigInt] reads the decimal text of any integer exactly. *)
Lemma BigInt_decimal_text (z : Z) : BigInt_of_string (decimal_text z) = Ok z.
Proof.
  unfold BigInt_of_string, BigInt, ToPrimitive, bind, decimal_text.
  destruct z as [|p|p]; [reflexivity| |];
    cbn [Z.to_int DecimalString.NilZero.string_of_int].
  - now rewrite StringToBigInt_pos.
  - rewrite code_units_String. change (N_of_ascii "-") with 45%N.
    now rewrite StringToBigInt_neg.
Qed.

(** [BigInt] reads the hexadecimal text of any natural number exactly. *)
Lemma BigInt_hex_text (n : N) : BigInt_of_string (hex_text n) = Ok (Z.of_N n).
Proof.
  unfold BigInt_of_string, BigInt, ToPrimitive, bind, hex_text.
  rewrite !code_units_String.
  change (N_of_ascii "0") with 48%N. change (N_of_ascii "x") with 120%N.
  assert (Hnil : N.to_hex_uint n <> Hexadecimal.Nil).
  { destruct n; [discriminate | apply HexadecimalPos.Unsigned.to_uint_nonnil]. }
  destruct (hex_string_nonnil _ Hnil) as [-> Hne].
  rewrite StringToBigInt_0x by (assumption || apply hex_digits_not_space).
  rewrite digits_value_hex.
  pose proof (HexadecimalN.Unsigned.of_to n) as Hval.
  unfold N.of_hex_uint in Hval. now rewrite Hval.
Qed.

(** ** [getAmount] *)

Lemma getAmount_native (t : Transfer) (a : Z) :
  getAssetId t = Coinbase.assetList_Eth ->
  BigInt_of_string (api.amount (model t)) = Ok a ->
  getAmount t = Ok (Z.quot a Coinbase.WEI_PER_ETHER).
Proof.
  intros Hasset Ha. unfold getAmount. rewrite Ha, Hasset. reflexivity.
Qed.

(** C1, as the code has it: for a record whose asset is the native asset
    and whose amount is the decimal text of an integer [a] of any size,
    [getAmount] is the BigInt quotient of [a] by [10 ^ 18], rounded towards
    zero.  Nothing is lost in the arithmetic ([a] is the quotient times the
    divisor plus a remainder smaller than the divisor), and the result is
    the exact display amount precisely when the remainder is zero. *)
Theorem getAmount_native_truncates (t : Transfer) (a : Z) :
  getAssetId t = Coinbase.assetList_Eth ->
  api.amount (model t) = decimal_text a ->
  exists q : Z,
    getAmount t = Ok q
    /\ a = q * Coinbase.WEI_PER_ETHER + Z.rem a Coinbase.WEI_PER_ETHER
    /\ Z.abs (Z.rem a Coinbase.WEI_PER_ETHER) < Coinbase.WEI_PER_ETHER
    /\ (q * Coinbase.WEI_PER_ETHER = a <-> Z.rem a Coinbase.WEI_PER_ETHER = 0).
Proof.
  intros Hasset Hamount.
  exists (Z.quot a Coinbase.WEI_PER_ETHER).
  assert (Hw : Coinbase.WEI_PER_ETHER = 1000000000000000000) by reflexivity.
  split; [|split; [|split]].
  - apply getAmount_native; [assumption|].
    rewrite Hamount. apply BigInt_decimal_text.
  - rewrite Z.mul_comm. apply Z.quot_rem'.
  - rewrite Hw. pose proof (Z.rem_bound_abs a 1000000000000000000). lia.
  - pose proof (Z.quot_rem' a Coinbase.WEI_PER_ETHER). lia.
Qed.

Lemma getAmount_native_truncates_witness :
  getAssetId (transfer_of "eth" "3000000000000500000000000000000" "" None)
  = Coinbase.assetList_Eth
  /\ api.amount
       (model (transfer_of "eth" "3000000000000500000000000000000" "" None))
     = decimal_text 3000000000000500000000000000000
  /\ exists q : Z,
       getAmount (transfer_of "eth" "3000000000000500000000000000000" "" None)
       = Ok q
       /\ 3000000000000500000000000000000
          = q * Coinbase.WEI_PER_ETHER
            + Z.rem 3000000000000500000000000000000 Coinbase.WEI_PER_ETHER
       /\ Z.abs (Z.rem 3000000000000500000000000000000 Coinbase.WEI_PER_ETHER)
          < Coinbase.WEI_PER_ETHER
       /\ (q * Coinbase.WEI_PER_ETHER = 3000000000000500000000000000000
           <-> Z.rem 3000000000000500000000000000000 Coinbase.WEI_PER_ETHER
               = 0).
Proof.
  split; [reflexivity|]. split; [reflexivity|].
  apply (getAmount_native_truncates
           (transfer_of "eth" "3000000000000500000000000000000" "" None)
           3000000000000500000000000000000); reflexivity.
Defined.

(** C1 as stated fails: for the atomic amount 2500000000000000000 the
    display amount is not 2.5. *)
Lemma getAmount_two_and_a_half :
  ~ (exists q : Z,
       getAmount (transfer_of "eth" "2500000000000000000" "" None) = Ok q
       /\ (inject_Z q == 5 # 2)%Q).
Proof.
  intros [q [Hq Heq]].
  assert (H2 : getAmount (transfer_of "eth" "2500000000000000000" "" None)
               = Ok 2) by reflexivity.
  rewrite H2 in Hq. injection Hq as <-.
  unfold Qeq in Heq. cbn in Heq. discriminate Heq.
Qed.

(** ** [getStatus] *)

(** C2, as the code has it: when the transaction is found with a block
    reference and no receipt is returned, the status is [FAILED]. *)
Theorem getStatus_block_without_receipt
  (net : ethers.Provider) (t : Transfer) (h bh : string)
  (onchain : ethers.TransactionResponse) :
  getTransactionHash t = Some h -> h <> ""%string ->
  ethers.getTransaction net h = Ok (Some onchain) ->
  ethers.blockHash onchain = Some bh -> bh <> ""%string ->
  ethers.getTransactionReceipt net h = Ok None ->
  getStatus net t = Ok FAILED.
Proof.
  intros Hh Hne Htx Hb Hbne Hr. unfold getStatus.
  rewrite Hh. cbn [truthy_string].
  apply String.eqb_neq in Hne. rewrite Hne. cbn [negb].
  rewrite Htx. cbn [bind]. rewrite Hb. cbn [truthy_string].
  apply String.eqb_neq in Hbne. rewrite Hbne. cbn [negb].
  rewrite Hr. reflexivity.
Qed.

Lemma getStatus_block_without_receipt_witness :
  getStatus block_without_receipt
    (transfer_of "eth" "1" (hex sample_json) (Some "0xfeed"%string))
  = Ok FAILED.
Proof.
  apply (getStatus_block_without_receipt block_without_receipt
           (transfer_of "eth" "1" (hex sample_json) (Some "0xfeed"%string))
           "0xfeed" "0xb10c" {| ethers.blockHash := Some "0xb10c"%string |});
    solve [reflexivity | discriminate].
Defined.

(** C2 as stated fails: with a block reference and no receipt the status
    is not [BROADCAST]. *)
Lemma getStatus_missing_receipt_not_broadcast :
  getStatus block_without_receipt
    (transfer_of "eth" "1" (hex sample_json) (Some "0xfeed"%string))
  <> Ok BROADCAST.
Proof. cbv. discriminate. Qed.

(** ** [setSignedTransaction] and the memoised transaction *)

(** C5, as the code has it: [setSignedTransaction] replaces whatever the
    instance holds, so after two calls the second transaction is the one
    kept; the server model, and with it the signed payload and the
    transaction hash, is left as it was. *)
Theorem setSignedTransaction_overwrites
  (t : Transfer) (tx1 tx2 : ethers.Transaction) :
  transaction (setSignedTransaction tx2 (setSignedTransaction tx1 t))
  = Some tx2
  /\ model (setSignedTransaction tx2 (setSignedTransaction tx1 t)) = model t.
Proof. split; reflexivity. Qed.

(** C5 as stated fails: a second, different signed transaction is neither
    rejected nor ignored, the first one is gone. *)
Lemma setSignedTransaction_not_monotonic :
  signed_by "0xaa" <> signed_by "0xbb"
  /\ transaction
       (setSignedTransaction (signed_by "0xbb")
          (setSignedTransaction (signed_by "0xaa")
             (transfer_of "eth" "1" (hex sample_json) None)))
     <> Some (signed_by "0xaa").
Proof. split; cbv; discriminate. Qed.

Lemma getTransaction_stable (t : Transfer) :
  getTransaction (snd (getTransaction t))
  = (fst (getTransaction t), snd (getTransaction t)).
Proof.
  unfold getTransaction at 2 3 4.
  destruct (transaction t) as [tx|] eqn:E.
  - cbn [fst snd]. unfold getTransaction. now rewrite E.
  - destruct (let* parsedPayload := parsePayload (getUnsignedPayload t) in
              buildTransaction parsedPayload) as [tx|e] eqn:D.
    + reflexivity.
    + cbn [fst snd]. unfold getTransaction. now rewrite E, D.
Qed.

Lemma after_calls_stable (t : Transfer) (n : nat) :
  after_calls (S n) t = snd (getTransaction t).
Proof.
  induction n as [|n IH]; [reflexivity|].
  change (after_calls (S (S n)) t)
    with (snd (getTransaction (after_calls (S n) t))).
  rewrite IH, getTransaction_stable. reflexivity.
Qed.

(** C9: every further call of [getTransaction] gives the result of the
    first one and leaves the instance as the first call left it; once a
    decoded transaction is stored, the call returns it whatever the payload
    of the model is, so nothing is decoded again. *)
Theorem getTransaction_repeatable (t : Transfer) (n : nat) :
  fst (getTransaction (after_calls (S n) t)) = fst (getTransaction t)
  /\ snd (getTransaction (after_calls (S n) t)) = snd (getTransaction t)
  /\ match fst (getTransaction t) with
     | Ok tx =>
         transaction (snd (getTransaction t)) = Some tx
         /\ forall m : api.TransferModel,
              getTransaction {| model := m; transaction := Some tx |}
              = (Ok tx, {| model := m; transaction := Some tx |})
     | Throw _ => snd (getTransaction t) = t
     end.
Proof.
  rewrite after_calls_stable, getTransaction_stable. cbn [fst snd].
  split; [reflexivity|]. split; [reflexivity|].
  unfold getTransaction.
  destruct (transaction t) as [tx|] eqn:E.
  - cbn [fst snd]. split; [assumption | reflexivity].
  - destruct (let* parsedPayload := parsePayload (getUnsignedPayload t) in
              buildTransaction parsedPayload) as [tx|e];
      cbn [fst snd]; [split|]; reflexivity.
Qed.

(** C10: after [setSignedTransaction(tx)] every call of [getTransaction]
    returns [tx] and leaves the instance alone, whatever the unsigned
    payload of the model would decode to. *)
Theorem getTransaction_after_setSignedTransaction
  (t : Transfer) (tx : ethers.Transaction) (n : nat) :
  getTransaction (after_calls n (setSignedTransaction tx t))
  = (Ok tx, setSignedTransaction tx t).
Proof.
  induction n as [|n IH]; [reflexivity|].
  cbn [after_calls]. rewrite IH. reflexivity.
Qed.

(** ** [wait] *)

Lemma wait_loop_more_fuel (extra fuel : nat) (polls : nat -> Poll) (k : nat)
  (t : Transfer) (s now i T : Z) (r : result Transfer * Z) :
  wait_loop fuel polls k t s now i T = Some r ->
  wait_loop (fuel + extra) polls k t s now i T = Some r.
Proof.
  revert k now. induction fuel as [|fuel IH]; intros k now; [discriminate|].
  cbn [wait_loop Nat.add].
  destruct (now - s <? T); [|trivial].
  destruct (getStatus (network (polls k)) t) as [[ | | | ]|e];
    trivial; apply IH.
Qed.

Lemma wait_loop_fuel_le (fuel fuel' : nat) (polls : nat -> Poll) (k : nat)
  (t : Transfer) (s now i T : Z) (r : result Transfer * Z) :
  (fuel <= fuel')%nat ->
  wait_loop fuel polls k t s now i T = Some r ->
  wait_loop fuel' polls k t s now i T = Some r.
Proof.
  intros Hle H. replace fuel' with (fuel + (fuel' - fuel))%nat by lia.
  now apply wait_loop_more_fuel.
Qed.

Section Waiting.
Variables (polls : nat -> Poll) (t : Transfer).
Variables (startTime intervalMs timeoutMs bound : Z).
Hypothesis interval_positive : 0 < intervalMs.
Hypothesis latency_bounded : forall k, 0 <= latency (polls k) <= bound.

Lemma wait_loop_times_out (n k : nat) (now : Z) :
  never_terminal polls t ->
  timeoutMs - (now - startTime) <= Z.of_nat n ->
  now - startTime < timeoutMs + intervalMs + bound ->
  exists e : Z,
    timeoutMs <= e < timeoutMs + intervalMs + bound
    /\ wait_loop (S n) polls k t startTime now intervalMs timeoutMs
       = Some (Throw (Error "Transfer timed out"), startTime + e).
Proof.
  intros Hnever. revert k now.
  induction n as [|n IH]; intros k now Hmeasure Hbound;
    cbn [wait_loop]; destruct (Z.ltb_spec (now - startTime) timeoutMs).
  - lia.
  - exists (now - startTime). split; [lia|]. do 2 f_equal. lia.
  - pose proof (latency_bounded k) as Hlat.
    destruct (IH (S k) (delay intervalMs (now + latency (polls k))))
      as [e [He Hw]]; try (unfold delay; lia).
    exists e. split; [assumption|].
    destruct (Hnever k) as [-> | ->]; exact Hw.
  - exists (now - startTime). split; [lia|]. do 2 f_equal. lia.
Qed.

Lemma poll_start_monotone (j k : nat) :
  (j <= k)%nat ->
  poll_start polls intervalMs startTime j
  <= poll_start polls intervalMs startTime k.
Proof.
  induction 1 as [|k _ IH]; [lia|].
  cbn [poll_start]. unfold delay.
  pose proof (latency_bounded k). lia.
Qed.

Lemma wait_loop_returns (j k : nat) :
  (forall m, (k <= m < k + j)%nat ->
             getStatus (network (polls m)) t = Ok PENDING
             \/ getStatus (network (polls m)) t = Ok BROADCAST) ->
  terminal_at polls t (k + j) ->
  poll_start polls intervalMs startTime (k + j) - startTime < timeoutMs ->
  wait_loop (S j) polls k t startTime
    (poll_start polls intervalMs startTime k) intervalMs timeoutMs
  = Some (Ok t, poll_start polls intervalMs startTime (k + j)
                + latency (polls (k + j))).
Proof.
  revert k. induction j as [|j IH]; intros k Hbefore Hterm Hguard.
  - rewrite Nat.add_0_r in *. cbn [wait_loop].
    destruct (Z.ltb_spec (poll_start polls intervalMs startTime k
                          - startTime) timeoutMs); [|lia].
    destruct Hterm as [Hterm | Hterm]; rewrite Hterm; reflexivity.
  - cbn [wait_loop].
    pose proof (poll_start_monotone k (k + S j) ltac:(lia)).
    destruct (Z.ltb_spec (poll_start polls intervalMs startTime k
                          - startTime) timeoutMs); [|lia].
    replace (k + S j)%nat with (S k + j)%nat in * by lia.
    assert (Hrec := IH (S k)).
    cbn [poll_start] in Hrec.
    destruct (Hbefore k ltac:(lia)) as [-> | ->];
      apply Hrec; trivial; intros m Hm; apply Hbefore; lia.
Qed.

Lemma wait_loop_throws_timeout (fuel k : nat) (now : Z) (e : JSError)
  (at_time : Z) :
  (forall k, exists st, getStatus (network (polls k)) t = Ok st) ->
  wait_loop fuel polls k t startTime now intervalMs timeoutMs
  = Some (Throw e, at_time) ->
  e = Error "Transfer timed out" /\ timeoutMs <= at_time - startTime.
Proof.
  intros Hok. revert k now.
  induction fuel as [|fuel IH]; intros k now; [discriminate|].
  cbn [wait_loop].
  destruct (Z.ltb_spec (now - startTime) timeoutMs).
  - destruct (Hok k) as [st ->].
    destruct st; try discriminate; apply IH.
  - intros [= <- <-]. split; [reflexivity | lia].
Qed.
End Waiting.

Lemma wait_loop_deadline (polls : nat -> Poll) (t : Transfer)
  (startTime intervalMs timeoutMs : Z) (n k : nat) :
  0 < intervalMs ->
  (forall j, 0 <= latency (polls j)) ->
  (forall j, poll_start polls intervalMs startTime j - startTime < timeoutMs ->
             goes_on polls t j) ->
  timeoutMs - (poll_start polls intervalMs startTime k - startTime)
  <= Z.of_nat n ->
  exists at_time : Z,
    timeoutMs <= at_time - startTime
    /\ wait_loop (S n) polls k t startTime
         (poll_start polls intervalMs startTime k) intervalMs timeoutMs
       = Some (Throw (Error "Transfer timed out"), at_time).
Proof.
  intros Hi Hlat Hgo. revert k.
  induction n as [|n IH]; intros k Hmeasure; cbn [wait_loop];
    destruct (Z.ltb_spec (poll_start polls intervalMs startTime k - startTime)
                timeoutMs) as [Hlt | Hge].
  - lia.
  - eexists. split; [|reflexivity]. lia.
  - pose proof (Hlat k) as Hk.
    destruct (IH (S k)) as [at_time [Hat Hw]];
      [cbn [poll_start]; unfold delay; lia|].
    exists at_time. split; [exact Hat|].
    cbn [poll_start] in Hw.
    destruct (Hgo k Hlt) as [Hs | Hs]; rewrite Hs; exact Hw.
  - eexists. split; [|reflexivity]. lia.
Qed.

(** C6, as the code has it: with a positive interval and status calls that
    take no negative time, a wait whose rounds that start before the
    deadline all see a state that is not terminal ends by throwing the
    plain [Error] with the fixed message "Transfer timed out", at an elapsed
    time that has reached the timeout; the error carries nothing of the
    operation. *)
Theorem wait_timeout_error (polls : nat -> Poll) (t : Transfer)
  (startTime intervalMs timeoutMs : Z) :
  0 < intervalMs ->
  (forall k, 0 <= latency (polls k)) ->
  (forall k, poll_start polls intervalMs startTime k - startTime < timeoutMs ->
             goes_on polls t k) ->
  exists at_time : Z,
    timeoutMs <= at_time - startTime
    /\ forall fuel : nat,
         (Z.to_nat timeoutMs < fuel)%nat ->
         wait fuel polls t startTime intervalMs timeoutMs
         = Some (Throw (Error "Transfer timed out"), at_time).
Proof.
  intros Hi Hlat Hgo.
  destruct (wait_loop_deadline polls t startTime intervalMs timeoutMs
              (Z.to_nat timeoutMs) O Hi Hlat Hgo) as [at_time [Hat Hw]];
    [cbn [poll_start]; lia|].
  exists at_time. split; [exact Hat|].
  intros fuel Hfuel. unfold wait.
  apply (wait_loop_fuel_le (S (Z.to_nat timeoutMs))); [lia | exact Hw].
Qed.

Lemma pending_without_hash (net : ethers.Provider) (t : Transfer) :
  getTransactionHash t = None -> getStatus net t = Ok PENDING.
Proof. intros H. unfold getStatus. now rewrite H. Qed.

Lemma wait_timeout_error_witness :
  0 < 200
  /\ (forall k, 0 <= latency (unmined_polls 1000 k))
  /\ (forall k,
        poll_start (unmined_polls 1000) 200 0 k - 0 < 10000 ->
        goes_on (unmined_polls 1000) broadcast_transfer k)
  /\ exists at_time : Z,
       10000 <= at_time - 0
       /\ forall fuel : nat,
            (Z.to_nat 10000 < fuel)%nat ->
            wait fuel (unmined_polls 1000) broadcast_transfer 0 200 10000
            = Some (Throw (Error "Transfer timed out"), at_time).
Proof.
  assert (Hlat : forall k, 0 <= latency (unmined_polls 1000 k))
    by (intros k; cbn; lia).
  assert (Hgo : forall k,
             poll_start (unmined_polls 1000) 200 0 k - 0 < 10000 ->
             goes_on (unmined_polls 1000) broadcast_transfer k)
    by (intros k _; right; reflexivity).
  split; [lia|]. split; [exact Hlat|]. split; [exact Hgo|].
  exact (wait_timeout_error (unmined_polls 1000) broadcast_transfer
           0 200 10000 ltac:(lia) Hlat Hgo).
Defined.

(** C6 as stated fails: no reading of the exception gives back the
    identifier of the operation, since two different operations time out
    with the same exception. *)
Lemma wait_error_does_not_identify :
  ~ (exists id_of : JSError -> string,
       forall (t : Transfer) (fuel : nat) (polls : nat -> Poll)
              (startTime intervalMs timeoutMs : Z) (e : JSError)
              (at_time : Z),
         (forall k, exists st, getStatus (network (polls k)) t = Ok st) ->
         wait fuel polls t startTime intervalMs timeoutMs
         = Some (Throw e, at_time) ->
         id_of e = getId t).
Proof.
  intros [id_of H].
  assert (H1 : id_of (Error "Transfer timed out") = "transfer-1"%string).
  { apply (H (transfer_of "eth" "1" (hex sample_json) None) 10%nat
             (steady_polls 0) 0 200 1000 (Error "Transfer timed out") 1000);
      [intros k; exists PENDING; reflexivity | reflexivity]. }
  assert (H2 : id_of (Error "Transfer timed out") = "transfer-2"%string).
  { apply (H second_transfer 10%nat (steady_polls 0) 0 200 1000
             (Error "Transfer timed out") 1000);
      [intros k; exists PENDING; reflexivity | reflexivity]. }
  rewrite H1 in H2. discriminate H2.
Qed.

(** C8, as the code has it: with a positive interval and a positive
    timeout, and status calls that take between [0] and [bound]
    milliseconds each, a wait that never sees a terminal state throws the
    timeout error at an elapsed time of at least the timeout and less than
    timeout plus interval plus [bound], so less than timeout plus interval
    when the status calls take no time; and when round [k] is the first to
    see a terminal state and starts before the deadline, [wait] returns the
    transfer as soon as that status call is over. *)
Theorem wait_timing (polls : nat -> Poll) (t : Transfer)
  (startTime intervalMs timeoutMs bound : Z) :
  0 < intervalMs -> 0 < timeoutMs ->
  (forall k, 0 <= latency (polls k) <= bound) ->
  (never_terminal polls t ->
   exists e : Z,
     timeoutMs <= e < timeoutMs + intervalMs + bound
     /\ forall fuel : nat,
          (Z.to_nat timeoutMs < fuel)%nat ->
          wait fuel polls t startTime intervalMs timeoutMs
          = Some (Throw (Error "Transfer timed out"), startTime + e))
  /\ (forall k : nat,
        (forall j, (j < k)%nat ->
                   getStatus (network (polls j)) t = Ok PENDING
                   \/ getStatus (network (polls j)) t = Ok BROADCAST) ->
        terminal_at polls t k ->
        poll_start polls intervalMs startTime k - startTime < timeoutMs ->
        forall fuel : nat,
          (k < fuel)%nat ->
          wait fuel polls t startTime intervalMs timeoutMs
          = Some (Ok t, poll_start polls intervalMs startTime k
                        + latency (polls k))).
Proof.
  intros Hi HT Hlat. split.
  - intros Hnever.
    pose proof (Hlat O) as H0.
    destruct (wait_loop_times_out polls t startTime intervalMs timeoutMs
                bound Hi Hlat (Z.to_nat timeoutMs) O startTime Hnever)
      as [e [He Hw]]; try lia.
    exists e. split; [assumption|].
    intros fuel Hfuel. unfold wait.
    apply (wait_loop_fuel_le (S (Z.to_nat timeoutMs))); [lia | exact Hw].
  - intros k Hbefore Hterm Hguard fuel Hfuel. unfold wait.
    apply (wait_loop_fuel_le (S k)); [lia|].
    apply (wait_loop_returns polls t startTime intervalMs timeoutMs bound
             Hi Hlat k O); rewrite ?Nat.add_0_l; trivial.
    intros m Hm. apply Hbefore. lia.
Qed.

Lemma wait_timing_witness :
  0 < 200 /\ 0 < 10000
  /\ (forall k, 0 <= latency (unmined_polls 1000 k) <= 1000)
  /\ never_terminal (unmined_polls 1000) broadcast_transfer
  /\ exists e : Z,
       10000 <= e < 10000 + 200 + 1000
       /\ forall fuel : nat,
            (Z.to_nat 10000 < fuel)%nat ->
            wait fuel (unmined_polls 1000) broadcast_transfer 0 200 10000
            = Some (Throw (Error "Transfer timed out"), 0 + e).
Proof.
  assert (Hlat : forall k, 0 <= latency (unmined_polls 1000 k) <= 1000)
    by (intros k; cbn; lia).
  assert (Hnever : never_terminal (unmined_polls 1000) broadcast_transfer)
    by (intros k; right; reflexivity).
  split; [lia|]. split; [lia|]. split; [exact Hlat|].
  split; [exact Hnever|].
  apply (proj1 (wait_timing (unmined_polls 1000) broadcast_transfer
                  0 200 10000 1000 ltac:(lia) ltac:(lia) Hlat)).
  exact Hnever.
Defined.

(** C8 as stated fails: for a transfer that has been broadcast, with status
    calls that find its transaction outside a block after one second each
    and the default interval of 0.2 s and timeout of 10 s, the timeout
    error comes at 10.8 s, which is not before 10.2 s. *)
Lemma wait_overshoots_interval :
  0 < default_intervalMs /\ 0 < default_timeoutMs
  /\ getTransactionHash broadcast_transfer = Some "0xfeed"%string
  /\ never_terminal (unmined_polls 1000) broadcast_transfer
  /\ ~ (exists (fuel : nat) (e : Z),
          wait fuel (unmined_polls 1000) broadcast_transfer 0
            default_intervalMs default_timeoutMs
          = Some (Throw (Error "Transfer timed out"), e)
          /\ default_timeoutMs <= e
             < default_timeoutMs + default_intervalMs).
Proof.
  unfold default_intervalMs, default_timeoutMs.
  split; [lia|]. split; [lia|]. split; [reflexivity|].
  split; [intros k; right; reflexivity|].
  intros [fuel [e [Hw He]]].
  assert (Hlate : wait 10 (unmined_polls 1000) broadcast_transfer 0 200 10000
                  = Some (Throw (Error "Transfer timed out"), 10800))
    by reflexivity.
  unfold wait in *.
  apply (wait_loop_more_fuel 10) in Hw.
  apply (wait_loop_more_fuel fuel) in Hlate.
  rewrite Nat.add_comm, Hlate in Hw.
  injection Hw as <-. lia.
Qed.

(** ** [getTransaction] *)

Lemma getTransaction_fresh (t : Transfer) (parsedPayload : JSValue)
  (tx : ethers.Transaction) :
  transaction t = None ->
  parsePayload (getUnsignedPayload t) = Ok parsedPayload ->
  buildTransaction parsedPayload = Ok tx ->
  getTransaction t = (Ok tx, {| model := model t; transaction := Some tx |}).
Proof.
  intros Hnone Hparse Hbuild. unfold getTransaction.
  rewrite Hnone, Hparse. cbn [bind]. now rewrite Hbuild.
Qed.

Lemma getTransaction_fresh_throws (t : Transfer) (parsedPayload : JSValue)
  (e : JSError) :
  transaction t = None ->
  parsePayload (getUnsignedPayload t) = Ok parsedPayload ->
  buildTransaction parsedPayload = Throw e ->
  getTransaction t = (Throw e, t).
Proof.
  intros Hnone Hparse Hbuild. unfold getTransaction.
  rewrite Hnone, Hparse. cbn [bind]. now rewrite Hbuild.
Qed.

Lemma BigInt_integer_text (z : Z) (s : string) :
  integer_text z s -> BigInt (JString (code_units s)) = Ok z.
Proof.
  intros [-> | [Hz ->]].
  - apply BigInt_decimal_text.
  - change (BigInt_of_string (hex_text (Z.to_N z)) = Ok z).
    rewrite BigInt_hex_text. f_equal. lia.
Qed.

Lemma BigInt_holds_text (props : list (utf16 * JSValue)) (z : string -> Z)
  (key : string) :
  holds_text props z key -> BigInt (property props key) = Ok (z key).
Proof.
  intros [s [Hs Ht]]. unfold property. rewrite Hs.
  now apply BigInt_integer_text.
Qed.

Lemma Get_object (props : list (utf16 * JSValue)) (key : string)
  (k : JSValue -> result ethers.Transaction) :
  (let* v := Get (JObject props) key in k v) = k (property props key).
Proof. reflexivity. Qed.

(** The assignments on an object, as one chain of conversions. *)
Lemma buildTransaction_object (props : list (utf16 * JSValue)) :
  buildTransaction (JObject props)
  = (let* c := BigInt (property props "chainId") in
     let* n' := BigInt (property props "nonce") in
     let* n := ethers.getNumber n' in
     let* mp := BigInt (property props "maxPriorityFeePerGas") in
     let* mf := BigInt (property props "maxFeePerGas") in
     let* g := BigInt (property props "gas") in
     let* a := ethers.address_or_null (property props "to") in
     let* v := BigInt (property props "value") in
     let* d := ethers.hexlify (property props "input") in
     Ok {| ethers.chainId := c; ethers.nonce := n;
           ethers.maxPriorityFeePerGas := Some mp;
           ethers.maxFeePerGas := Some mf; ethers.gasLimit := g;
           ethers.to := a; ethers.value := v; ethers.data := d;
           ethers.signature := None |}).
Proof.
  unfold buildTransaction, ethers.set_nonce, ethers.set_to, ethers.set_data.
  cbv zeta.
  repeat (rewrite ?Get_object;
          match goal with
          | |- bind ?r _ = bind ?r _ => destruct r; cbn [bind]; [|reflexivity]
          | |- bind (bind ?r _) _ = bind ?r _ =>
              destruct r; cbn [bind]; [|reflexivity]
          end).
  reflexivity.
Qed.

Lemma getNumber_safe (n : Z) :
  - ethers.maxValue <= n <= ethers.maxValue -> ethers.getNumber n = Ok n.
Proof.
  intros H. unfold ethers.getNumber.
  destruct (Z.leb_spec (- ethers.maxValue) n); [|lia].
  destruct (Z.leb_spec n ethers.maxValue); [reflexivity | lia].
Qed.


(** C4, as the code has it: when the payload decodes to an object whose
    numeric fields are strings holding the text of an integer (decimal, or
    hexadecimal with [0x] for one that is not negative), the nonce is a
    safe integer (at most 2^53 - 1 in absolute value, the range that the
    setter of [nonce] takes), and the setters of [to] and [data] take the
    properties [to] and [input], the decoded transaction has exactly these
    integers, whatever the size of the five that are not the nonce. *)
Theorem getTransaction_exact_integer_texts
  (t : Transfer) (props : list (utf16 * JSValue)) (z : string -> Z)
  (a : option string) (d : string) :
  transaction t = None ->
  parsePayload (getUnsignedPayload t) = Ok (JObject props) ->
  (forall key, In key numeric_fields -> holds_text props z key) ->
  - ethers.maxValue <= z "nonce"%string <= ethers.maxValue ->
  ethers.address_or_null (property props "to") = Ok a ->
  ethers.hexlify (property props "input") = Ok d ->
  getTransaction t
  = (Ok {| ethers.chainId := z "chainId"%string;
           ethers.nonce := z "nonce"%string;
           ethers.maxPriorityFeePerGas := Some (z "maxPriorityFeePerGas"%string);
           ethers.maxFeePerGas := Some (z "maxFeePerGas"%string);
           ethers.gasLimit := z "gas"%string;
           ethers.to := a;
           ethers.value := z "value"%string;
           ethers.data := d;
           ethers.signature := None |},
     {| model := model t;
        transaction :=
          Some {| ethers.chainId := z "chainId"%string;
                  ethers.nonce := z "nonce"%string;
                  ethers.maxPriorityFeePerGas :=
                    Some (z "maxPriorityFeePerGas"%string);
                  ethers.maxFeePerGas := Some (z "maxFeePerGas"%string);
                  ethers.gasLimit := z "gas"%string;
                  ethers.to := a;
                  ethers.value := z "value"%string;
                  ethers.data := d;
                  ethers.signature := None |} |}).
Proof.
  intros Hnone Hparse Hfields Hnonce Hto Hinput.
  apply (getTransaction_fresh t (JObject props)); [assumption..|].
  rewrite buildTransaction_object.
  rewrite !(BigInt_holds_text props z) by (apply Hfields; cbn; tauto).
  cbn [bind]. rewrite (getNumber_safe _ Hnonce), Hto, Hinput.
  reflexivity.
Qed.

Lemma getTransaction_exact_integer_texts_witness :
  transaction (transfer_of "eth" "1" (hex wide_json) None) = None
  /\ parsePayload
       (getUnsignedPayload (transfer_of "eth" "1" (hex wide_json) None))
     = Ok (JObject wide_properties)
  /\ (forall key, In key numeric_fields ->
                  holds_text wide_properties wide_values key)
  /\ - ethers.maxValue <= wide_values "nonce" <= ethers.maxValue
  /\ ethers.address_or_null (property wide_properties "to")
     = Ok (Some "0x5aAeb6053F3E94C9b9A09f33669435E7Ef1BeAed"%string)
  /\ ethers.hexlify (property wide_properties "input")
     = Ok "0xa9059cbb"%string
  /\ fst (getTransaction (transfer_of "eth" "1" (hex wide_json) None))
     = Ok {| ethers.chainId := 9007199254740993;
             ethers.nonce := 9007199254740991;
             ethers.maxPriorityFeePerGas := Some 18014398509481985;
             ethers.maxFeePerGas := Some 18446744073709551617;
             ethers.gasLimit := 9007199254740995;
             ethers.to :=
               Some "0x5aAeb6053F3E94C9b9A09f33669435E7Ef1BeAed"%string;
             ethers.value := 4096000000000000000001;
             ethers.data := "0xa9059cbb"%string;
             ethers.signature := None |}.
Proof.
  assert (Hparse : parsePayload
                     (getUnsignedPayload
                        (transfer_of "eth" "1" (hex wide_json) None))
                   = Ok (JObject wide_properties))
    by (vm_compute; reflexivity).
  assert (Hfields : forall key, In key numeric_fields ->
                      holds_text wide_properties wide_values key).
  { intros key Hin. cbn [numeric_fields In] in Hin.
    destruct Hin as [<- | [<- | [<- | [<- | [<- | [<- | []]]]]]].
    - exists "0x20000000000001"%string.
      split; [vm_compute; reflexivity|].
      right. split; [vm_compute; discriminate | vm_compute; reflexivity].
    - exists "9007199254740991"%string.
      split; [vm_compute; reflexivity|]. left. vm_compute; reflexivity.
    - exists "0x40000000000001"%string.
      split; [vm_compute; reflexivity|].
      right. split; [vm_compute; discriminate | vm_compute; reflexivity].
    - exists "18446744073709551617"%string.
      split; [vm_compute; reflexivity|]. left. vm_compute; reflexivity.
    - exists "0x20000000000003"%string.
      split; [vm_compute; reflexivity|].
      right. split; [vm_compute; discriminate | vm_compute; reflexivity].
    - exists "0xde0b6b3a7640000001"%string.
      split; [vm_compute; reflexivity|].
      right. split; [vm_compute; discriminate | vm_compute; reflexivity]. }
  assert (Hnonce : - ethers.maxValue <= wide_values "nonce"
                   <= ethers.maxValue)
    by (split; vm_compute; discriminate).
  assert (Hto : ethers.address_or_null (property wide_properties "to")
                = Ok (Some "0x5aAeb6053F3E94C9b9A09f33669435E7Ef1BeAed"%string))
    by (vm_compute; reflexivity).
  assert (Hinput : ethers.hexlify (property wide_properties "input")
                   = Ok "0xa9059cbb"%string)
    by (vm_compute; reflexivity).
  split; [reflexivity|]. split; [exact Hparse|]. split; [exact Hfields|].
  split; [exact Hnonce|]. split; [exact Hto|]. split; [exact Hinput|].
  rewrite (getTransaction_exact_integer_texts
             (transfer_of "eth" "1" (hex wide_json) None)
             wide_properties wide_values
             (Some "0x5aAeb6053F3E94C9b9A09f33669435E7Ef1BeAed"%string)
             "0xa9059cbb"%string eq_refl Hparse Hfields Hnonce Hto Hinput).
  reflexivity.
Defined.

(** C4 as stated fails, in two ways.  A value field written as the number
    literal 9007199254740993 is not what the decoded transaction holds (it
    holds 9007199254740992, the nearest binary64 number).  And a nonce
    above 2^53 - 1 is not preserved, even as a string: the setter of
    [nonce] refuses it and [getTransaction] throws. *)
Lemma getTransaction_number_literal_inexact :
  fst (getTransaction (transfer_of "eth" "1" (hex literal_json) None))
  = Ok {| ethers.chainId := 84532; ethers.nonce := 0;
          ethers.maxPriorityFeePerGas := Some 1000000;
          ethers.maxFeePerGas := Some 1000000; ethers.gasLimit := 21000;
          ethers.to := Some "0x4D9E4F3f4D1A8B5F4f7b1F5b5C7b8d6b2B3b1b0b"%string;
          ethers.value := 9007199254740992;
          ethers.data := "0x"%string;
          ethers.signature := None |}
  /\ ~ (exists tx : ethers.Transaction,
          fst (getTransaction
                 (transfer_of "eth" "1" (hex literal_json) None)) = Ok tx
          /\ ethers.value tx = 9007199254740993)
  /\ fst (getTransaction (transfer_of "eth" "1" (hex overflow_json) None))
     = Throw (InvalidArgument "overflow" "value").
Proof.
  assert (H : fst (getTransaction
                     (transfer_of "eth" "1" (hex literal_json) None))
              = Ok {| ethers.chainId := 84532; ethers.nonce := 0;
                      ethers.maxPriorityFeePerGas := Some 1000000;
                      ethers.maxFeePerGas := Some 1000000;
                      ethers.gasLimit := 21000;
                      ethers.to :=
                        Some "0x4D9E4F3f4D1A8B5F4f7b1F5b5C7b8d6b2B3b1b0b"%string;
                      ethers.value := 9007199254740992;
                      ethers.data := "0x"%string;
                      ethers.signature := None |})
    by (vm_compute; reflexivity).
  split; [exact H|]. split; [|vm_compute; reflexivity].
  intros [tx [Htx Hv]]. rewrite H in Htx. injection Htx as <-.
  cbn in Hv. discriminate Hv.
Qed.

(** A last character left alone after the pairs is not read at all: an
    odd-length payload decodes as the payload without its last
    character. *)
Lemma match_pairs_odd (p : string) (c : ascii) :
  Nat.even (String.length p) = true ->
  (forall a, In a (list_ascii_of_string p) -> isLineTerminator a = false) ->
  match_pairs (p ++ String c EmptyString) = match_pairs p.
Proof.
  revert p c. fix IH 1. intros [|a [|b p]] c Heven Hlt.
  - reflexivity.
  - discriminate Heven.
  - cbn [String.append match_pairs].
    rewrite (Hlt a), (Hlt b) by (cbn; tauto). cbn [negb andb].
    f_equal. apply IH.
    + exact Heven.
    + intros x Hx. apply Hlt. cbn. tauto.
Qed.

Lemma parsePayload_odd (p : string) (c : ascii) :
  Nat.even (String.length p) = true ->
  (forall a, In a (list_ascii_of_string p) -> isLineTerminator a = false) ->
  parsePayload (p ++ String c EmptyString) = parsePayload p.
Proof.
  intros Heven Hlt. unfold parsePayload, String_match_pairs.
  now rewrite match_pairs_odd.
Qed.

(** C3 on the code.  The payload "0x1" is not rejected by the guard on
    the byte pairs: its one pair reads as the byte 0 and the [catch] around
    [JSON.parse] reports it.  A well-formed payload followed by one more
    character, or by a pair that is not hexadecimal, decodes as if nothing
    had been added. *)
Theorem getTransaction_malformed_hex :
  fst (getTransaction (transfer_of "eth" "1" "0x1" None))
  = Throw (InvalidUnsignedPayload "Unable to decode unsigned payload JSON")
  /\ Nat.odd (String.length (hex sample_json ++ "0")) = true
  /\ fst (getTransaction
            (transfer_of "eth" "1" (hex sample_json ++ "0") None))
     = fst (getTransaction (transfer_of "eth" "1" (hex sample_json) None))
  /\ fst (getTransaction
            (transfer_of "eth" "1" (hex sample_json ++ " 9") None))
     = fst (getTransaction (transfer_of "eth" "1" (hex sample_json) None))
  /\ exists tx : ethers.Transaction,
       fst (getTransaction (transfer_of "eth" "1" (hex sample_json) None))
       = Ok tx.
Proof.
  repeat split; try (vm_compute; reflexivity).
  eexists. vm_compute. reflexivity.
Qed.

Lemma getTransaction_missing_chainId (t : Transfer)
  (props : list (utf16 * JSValue)) :
  transaction t = None ->
  parsePayload (getUnsignedPayload t) = Ok (JObject props) ->
  own_property (code_units "chainId") props = None ->
  getTransaction t = (Throw TypeError, t).
Proof.
  intros Hnone Hparse Hmissing.
  apply (getTransaction_fresh_throws t (JObject props)); [assumption..|].
  unfold buildTransaction. cbn [Get bind]. now rewrite Hmissing.
Qed.

(** C7 on the code.  A payload that is valid JSON and lacks the numeric
    fields ends in the [TypeError] of [BigInt(undefined)], a field holding
    a text that is no integer in a [SyntaxError], a fraction in a
    [RangeError]: the conversions stand after the [try] block and their
    exceptions leave [getTransaction] as they are. *)
Theorem getTransaction_schema_errors :
  fst (getTransaction (transfer_of "eth" "1" (hex (json "{}")) None))
  = Throw TypeError
  /\ fst (getTransaction
            (transfer_of "eth" "1" (hex (json "{'chainId':'abc'}")) None))
     = Throw SyntaxError
  /\ fst (getTransaction
            (transfer_of "eth" "1" (hex (json "{'chainId':1.5}")) None))
     = Throw RangeError
  /\ fst (getTransaction
            (transfer_of "eth" "1" (hex (json "{'chainId':null}")) None))
     = Throw TypeError.
Proof. repeat split; vm_compute; reflexivity. Qed.

(** * Further properties *)

(** ** [getStatus], case by case *)

Ltac status_cases net t :=
  unfold getStatus;
  destruct (getTransactionHash t) as [h|] eqn:Hhash;
  [ cbn [truthy_string];
    destruct (String.eqb_spec h "") as [Hempty|Hne]; cbn [negb];
    [ | destruct (ethers.getTransaction net h) as [[onchain|]|err] eqn:Htx;
        cbn [bind];
        [ destruct (ethers.blockHash onchain) as [bh|] eqn:Hbh;
          cbn [truthy_string];
          [ destruct (String.eqb_spec bh "") as [Hbempty|Hbne]; cbn [negb];
            [ | destruct (ethers.getTransactionReceipt net h)
                  as [[receipt|]|err] eqn:Hr; cbn [bind];
                [ destruct (ethers.status receipt) as [n|] eqn:Hs;
                  cbn [truthy_number];
                  [ destruct (Z.eqb_spec n 0) as [Hzero|Hnz]; cbn [negb] | ]
                | | ] ]
          | ]
        | | ] ]
  | ].

(** X1: the status is [COMPLETE] exactly when the transfer has a hash that
    is not empty, the network finds the transaction with a block hash that
    is not empty, and the receipt has a status other than zero. *)
Theorem getStatus_complete_iff (net : ethers.Provider) (t : Transfer) :
  getStatus net t = Ok COMPLETE <->
  exists h onchain bh receipt n,
    getTransactionHash t = Some h /\ h <> ""%string
    /\ ethers.getTransaction net h = Ok (Some onchain)
    /\ ethers.blockHash onchain = Some bh /\ bh <> ""%string
    /\ ethers.getTransactionReceipt net h = Ok (Some receipt)
    /\ ethers.status receipt = Some n /\ n <> 0.
Proof.
  split.
  - status_cases net t; intros H; try discriminate H.
    exists h, onchain, bh, receipt, n. repeat split; assumption.
  - intros (h & onchain & bh & receipt & n
            & Hh & Hne & Htx & Hb & Hbne & Hr & Hs & Hn).
    unfold getStatus. rewrite Hh. cbn [truthy_string].
    apply String.eqb_neq in Hne. rewrite Hne. cbn [negb].
    rewrite Htx. cbn [bind]. rewrite Hb. cbn [truthy_string].
    apply String.eqb_neq in Hbne. rewrite Hbne. cbn [negb].
    rewrite Hr. cbn [bind]. rewrite Hs. cbn [truthy_number].
    apply Z.eqb_neq in Hn. now rewrite Hn.
Qed.

(** X2: the status is [FAILED] exactly when the transaction is found with
    a block hash and the receipt is missing, or has no status, or has the
    status zero. *)
Theorem getStatus_failed_iff (net : ethers.Provider) (t : Transfer) :
  getStatus net t = Ok FAILED <->
  exists h onchain bh r,
    getTransactionHash t = Some h /\ h <> ""%string
    /\ ethers.getTransaction net h = Ok (Some onchain)
    /\ ethers.blockHash onchain = Some bh /\ bh <> ""%string
    /\ ethers.getTransactionReceipt net h = Ok r
    /\ (r = None
        \/ exists receipt, r = Some receipt
             /\ (ethers.status receipt = None
                 \/ ethers.status receipt = Some 0)).
Proof.
  split.
  - status_cases net t; intros H; try discriminate H.
    + exists h, onchain, bh, (Some receipt). repeat split; try assumption.
      right. exists receipt. split; [reflexivity|]. right. now subst n.
    + exists h, onchain, bh, (Some receipt). repeat split; try assumption.
      right. exists receipt. split; [reflexivity|]. now left.
    + exists h, onchain, bh, None. repeat split; try assumption. now left.
  - intros (h & onchain & bh & r & Hh & Hne & Htx & Hb & Hbne & Hr & Hcase).
    unfold getStatus. rewrite Hh. cbn [truthy_string].
    apply String.eqb_neq in Hne. rewrite Hne. cbn [negb].
    rewrite Htx. cbn [bind]. rewrite Hb. cbn [truthy_string].
    apply String.eqb_neq in Hbne. rewrite Hbne. cbn [negb].
    rewrite Hr. cbn [bind].
    destruct Hcase as [-> | [receipt [-> [Hs | Hs]]]];
      [reflexivity | now rewrite Hs | now rewrite Hs].
Qed.

(** X3: the status is [BROADCAST] exactly when the transaction is found
    and has no block hash (or an empty one); the receipt is not asked
    for. *)
Theorem getStatus_broadcast_iff (net : ethers.Provider) (t : Transfer) :
  getStatus net t = Ok BROADCAST <->
  exists h onchain,
    getTransactionHash t = Some h /\ h <> ""%string
    /\ ethers.getTransaction net h = Ok (Some onchain)
    /\ (ethers.blockHash onchain = None
        \/ ethers.blockHash onchain = Some ""%string).
Proof.
  split.
  - status_cases net t; intros H; try discriminate H.
    + exists h, onchain. subst bh. repeat split; try assumption. now right.
    + exists h, onchain. repeat split; try assumption. now left.
  - intros (h & onchain & Hh & Hne & Htx & Hb).
    unfold getStatus. rewrite Hh. cbn [truthy_string].
    apply String.eqb_neq in Hne. rewrite Hne. cbn [negb].
    rewrite Htx. cbn [bind].
    destruct Hb as [-> | ->]; reflexivity.
Qed.

(** X4: the status is [PENDING] exactly when the transfer has no hash (or
    an empty one) or the network does not find the transaction. *)
Theorem getStatus_pending_iff (net : ethers.Provider) (t : Transfer) :
  getStatus net t = Ok PENDING <->
  getTransactionHash t = None
  \/ getTransactionHash t = Some ""%string
  \/ exists h, getTransactionHash t = Some h
               /\ ethers.getTransaction net h = Ok None.
Proof.
  split.
  - status_cases net t; intros H; try discriminate H.
    + right. left. now subst h.
    + right. right. now exists h.
    + now left.
  - unfold getStatus.
    intros [-> | [-> | [h [-> Htx]]]]; try reflexivity.
    cbn [truthy_string]. destruct (String.eqb_spec h ""); cbn [negb];
      [reflexivity|].
    now rewrite Htx.
Qed.

(** X5: [getStatus] throws exactly when one of the two calls of the
    network that it makes is rejected, and with the error of that call:
    the search for the transaction, or the request of the receipt once the
    transaction is found with a block hash. *)
Theorem getStatus_throws_iff (net : ethers.Provider) (t : Transfer)
  (e : JSError) :
  getStatus net t = Throw e <->
  exists h,
    getTransactionHash t = Some h /\ h <> ""%string
    /\ (ethers.getTransaction net h = Throw e
        \/ exists onchain bh,
             ethers.getTransaction net h = Ok (Some onchain)
             /\ ethers.blockHash onchain = Some bh /\ bh <> ""%string
             /\ ethers.getTransactionReceipt net h = Throw e).
Proof.
  split.
  - status_cases net t; intros H; try discriminate H;
      injection H as <-; exists h; repeat split; try assumption.
    + right. exists onchain, bh. repeat split; assumption.
    + now left.
  - intros (h & Hh & Hne & Hcase).
    unfold getStatus. rewrite Hh. cbn [truthy_string].
    apply String.eqb_neq in Hne. rewrite Hne. cbn [negb].
    destruct Hcase as [-> | (onchain & bh & -> & Hb & Hbne & Hr)];
      [reflexivity|].
    cbn [bind]. rewrite Hb. cbn [truthy_string].
    apply String.eqb_neq in Hbne. rewrite Hbne. cbn [negb].
    now rewrite Hr.
Qed.

(** ** The model of an instance never changes *)

Lemma call_model (t : Transfer) (c : Call) : model (call t c) = model t.
Proof.
  destruct c as [|tx]; [|reflexivity].
  cbn [call]. unfold getTransaction.
  destruct (transaction t); [reflexivity|].
  destruct (let* parsedPayload := parsePayload (getUnsignedPayload t) in
            buildTransaction parsedPayload); reflexivity.
Qed.

Lemma calls_model (cs : list Call) (t : Transfer) :
  model (calls cs t) = model t.
Proof.
  unfold calls. revert t.
  induction cs as [|c cs IH]; intros t; [reflexivity|].
  cbn [fold_left]. rewrite IH. apply call_model.
Qed.

(** X6: whatever calls of [getTransaction] and [setSignedTransaction] are
    made on an instance, in whatever order, its model stays the same, and
    so do its hash, its amount, its link and the status it resolves to. *)
Theorem calls_keep_model (cs : list Call) (t : Transfer)
  (net : ethers.Provider) :
  model (calls cs t) = model t
  /\ getTransactionHash (calls cs t) = getTransactionHash t
  /\ getAmount (calls cs t) = getAmount t
  /\ getTransactionLink (calls cs t) = getTransactionLink t
  /\ getStatus net (calls cs t) = getStatus net t.
Proof.
  pose proof (calls_model cs t) as H.
  unfold getTransactionLink, getStatus, getAmount, getAssetId,
    getTransactionHash.
  rewrite H. repeat split.
Qed.

(** ** [getTransactionLink] *)

Lemma append_cancel (p a b : string) :
  (p ++ a)%string = (p ++ b)%string -> a = b.
Proof.
  induction p as [|c p IH]; cbn [String.append]; [trivial|].
  intros [= H]. now apply IH.
Qed.

(** X7: two transfers have the same link exactly when they have the same
    hash, but for one case: a transfer without hash has the link of a
    transfer whose hash is the text "undefined". *)
Theorem getTransactionLink_same_iff (t1 t2 : Transfer) :
  getTransactionLink t1 = getTransactionLink t2 <->
  getTransactionHash t1 = getTransactionHash t2
  \/ (getTransactionHash t1 = None
      /\ getTransactionHash t2 = Some "undefined"%string)
  \/ (getTransactionHash t1 = Some "undefined"%string
      /\ getTransactionHash t2 = None).
Proof.
  unfold getTransactionLink. split.
  - intros H%append_cancel.
    destruct (getTransactionHash t1) as [h1|],
             (getTransactionHash t2) as [h2|]; cbn [template_text] in H;
      subst; auto.
  - intros [-> | [[-> ->] | [-> ->]]]; reflexivity.
Qed.

(** ** [getAmount] on the other paths *)

(** X8: for a record whose asset is not the native one and whose amount
    is the text of an integer (decimal, or hexadecimal for one that is not
    negative), [getAmount] is that integer, whatever its size. *)
Theorem getAmount_other_asset (t : Transfer) (z : Z) :
  getAssetId t <> Coinbase.assetList_Eth ->
  integer_text z (api.amount (model t)) ->
  getAmount t = Ok z.
Proof.
  intros Hasset Htext. unfold getAmount, BigInt_of_string.
  rewrite (BigInt_integer_text _ _ Htext). cbn [bind].
  apply String.eqb_neq in Hasset. now rewrite Hasset.
Qed.

Lemma getAmount_other_asset_witness :
  getAssetId (transfer_of "usdc" "2500000000000000000000000000001" "" None)
  <> Coinbase.assetList_Eth
  /\ integer_text 2500000000000000000000000000001
       (api.amount
          (model (transfer_of "usdc" "2500000000000000000000000000001"
                    "" None)))
  /\ getAmount (transfer_of "usdc" "2500000000000000000000000000001" "" None)
     = Ok 2500000000000000000000000000001.
Proof.
  assert (Hasset : getAssetId (transfer_of "usdc"
                                 "2500000000000000000000000000001" "" None)
                   <> Coinbase.assetList_Eth) by discriminate.
  assert (Htext : integer_text 2500000000000000000000000000001
                    (api.amount
                       (model (transfer_of "usdc"
                                 "2500000000000000000000000000001" ""
                                 None)))) by (left; reflexivity).
  split; [exact Hasset|]. split; [exact Htext|].
  exact (getAmount_other_asset _ _ Hasset Htext).
Defined.

(** X9: [getAmount] throws exactly when the amount of the model is not the
    text of an integer that [BigInt] reads, and the error is then a
    [SyntaxError], for the native asset as for any other. *)
Theorem getAmount_throws_iff (t : Transfer) (e : JSError) :
  getAmount t = Throw e <->
  e = SyntaxError
  /\ StringToBigInt (code_units (api.amount (model t))) = None.
Proof.
  unfold getAmount, BigInt_of_string, BigInt, ToPrimitive. cbn [bind].
  destruct (StringToBigInt (code_units (api.amount (model t)))) as [a|].
  - cbn [bind]. split; [|intros [_ [=]]].
    destruct (String.eqb (getAssetId t) Coinbase.assetList_Eth);
      discriminate.
  - cbn [bind]. split; [intros [= <-] | intros [-> _]]; auto.
Qed.

(** ** The errors of [getTransaction] *)

Lemma bind_throws {A B : Type} (r : result A) (k : A -> result B)
  (e : JSError) :
  bind r k = Throw e -> r = Throw e \/ exists a, r = Ok a /\ k a = Throw e.
Proof.
  destruct r as [a|e']; cbn [bind]; intros H.
  - right. now exists a.
  - left. now injection H as <-.
Qed.

Lemma JSValue_nested_ind (P : JSValue -> Prop) :
  P JUndefined -> P JNull -> (forall b, P (JBool b)) ->
  (forall x, P (JNumber x)) -> (forall s, P (JString s)) ->
  (forall l, Forall P l -> P (JArray l)) ->
  (forall m, Forall (fun kv => P (snd kv)) m -> P (JObject m)) ->
  forall v, P v.
Proof.
  intros Hu Hn Hb Hx Hs Ha Ho.
  fix IH 1. intros [ | | b | x | s | l | m].
  - exact Hu.
  - exact Hn.
  - apply Hb.
  - apply Hx.
  - apply Hs.
  - apply Ha.
    revert l. fix IHl 1. intros [|v l]; constructor; [apply IH | apply IHl].
  - apply Ho.
    revert m. fix IHm 1. intros [|[k v] m]; constructor;
      [apply IH | apply IHm].
Qed.

Lemma ToString_throws (v : JSValue) (e : JSError) :
  ToString v = Throw e -> e = TypeError.
Proof.
  revert e. induction v as [ | | | | | l Hl | m Hm]
    using JSValue_nested_ind; intros e; cbn [ToString]; try discriminate.
  - induction Hl as [|v l Hv _ IH]; [discriminate|].
    intros [H | [a [_ H]]]%bind_throws.
    + destruct v; try discriminate H; now apply Hv.
    + destruct l as [|w l]; [discriminate H|].
      apply bind_throws in H as [H | [b [_ H]]];
        [now apply IH | discriminate H].
  - destruct (own_property (code_units "toString") m);
      [intros [= <-]; reflexivity | discriminate].
Qed.

Lemma BigInt_throws (v : JSValue) (e : JSError) :
  BigInt v = Throw e -> native_error e.
Proof.
  unfold BigInt, native_error.
  intros [H | [prim [Hp H]]]%bind_throws.
  - left. destruct v; try discriminate H;
      cbn [ToPrimitive] in H;
      apply bind_throws in H as [H | [s [_ H]]];
      solve [now apply ToString_throws in H | discriminate H].
  - destruct prim as [ | | b | x | s | l | m];
      try discriminate H; try (injection H as <-; tauto).
    + destruct (NumberToBigInt x); [discriminate H | injection H as <-; tauto].
    + destruct (StringToBigInt s); [discriminate H | injection H as <-; tauto].
Qed.

Lemma Get_throws (v : JSValue) (key : string) (e : JSError) :
  Get v key = Throw e -> native_error e.
Proof.
  unfold native_error.
  destruct v; cbn [Get]; intros H; try discriminate H;
    injection H as <-; tauto.
Qed.

Lemma set_nonce_throws (n : Z) (tx : ethers.Transaction) (e : JSError) :
  ethers.set_nonce n tx = Throw e -> refused_by_ethers e.
Proof.
  unfold ethers.set_nonce, ethers.getNumber, refused_by_ethers.
  destruct (_ && _); cbn [bind]; intros H;
    [discriminate H | injection H as <-; tauto].
Qed.

Lemma getAddress_throws (address : utf16) (e : JSError) :
  ethers.getAddress address = Throw e -> refused_by_ethers e.
Proof.
  unfold ethers.getAddress, refused_by_ethers.
  destruct (ethers.isHexAddress address).
  - destruct (_ || _); intros H;
      [discriminate H | injection H as <-; tauto].
  - destruct (ethers.isIcapAddress address).
    + destruct (utf16_eqb _ _); intros H;
        [discriminate H | injection H as <-; tauto].
    + intros H. injection H as <-. tauto.
Qed.

Lemma address_or_null_throws (v : JSValue) (e : JSError) :
  ethers.address_or_null v = Throw e -> refused_by_ethers e.
Proof.
  destruct v as [ | | b | x | s | l | m]; cbn [ethers.address_or_null];
    intros H; try discriminate H;
    try (injection H as <-; unfold refused_by_ethers; tauto).
  apply bind_throws in H as [H | [a [_ H]]];
    [now apply getAddress_throws in H | discriminate H].
Qed.

Lemma set_to_throws (v : JSValue) (tx : ethers.Transaction) (e : JSError) :
  ethers.set_to v tx = Throw e -> refused_by_ethers e.
Proof.
  unfold ethers.set_to.
  intros [H | [a [_ H]]]%bind_throws;
    [now apply address_or_null_throws in H | discriminate H].
Qed.

Lemma hexlify_throws (v : JSValue) (e : JSError) :
  ethers.hexlify v = Throw e
  -> e = InvalidArgument "invalid BytesLike value" "value".
Proof.
  unfold ethers.hexlify.
  destruct v as [ | | b | x | [|c0 [|c1 digits]] | l | m];
    try (intros H; now injection H as <-).
  destruct (_ && _); intros H; [discriminate H | now injection H as <-].
Qed.

Lemma set_data_throws (v : JSValue) (tx : ethers.Transaction) (e : JSError) :
  ethers.set_data v tx = Throw e -> refused_by_ethers e.
Proof.
  unfold ethers.set_data, refused_by_ethers.
  intros [H | [d [_ H]]]%bind_throws;
    [apply hexlify_throws in H; tauto | discriminate H].
Qed.

Lemma buildTransaction_throws (p : JSValue) (e : JSError) :
  buildTransaction p = Throw e -> native_error e \/ refused_by_ethers e.
Proof.
  unfold buildTransaction. cbv zeta. intros H.
  repeat (apply bind_throws in H as [H | [? [_ H]]];
          [solve [left; eapply Get_throws; exact H
                 | left; eapply BigInt_throws; exact H
                 | right; eapply set_nonce_throws; exact H
                 | right; eapply set_to_throws; exact H
                 | right; eapply set_data_throws; exact H] | ]).
  discriminate H.
Qed.

Lemma getTransaction_throws_cases (t t' : Transfer) (e : JSError) :
  getTransaction t = (Throw e, t') ->
  t' = t /\ transaction t = None
  /\ ((e = InvalidUnsignedPayload "Unable to parse unsigned payload"
       /\ String_match_pairs (getUnsignedPayload t) = None)
      \/ (e = InvalidUnsignedPayload "Unable to decode unsigned payload JSON"
          /\ String_match_pairs (getUnsignedPayload t) <> None)
      \/ ((native_error e \/ refused_by_ethers e)
          /\ exists p, parsePayload (getUnsignedPayload t) = Ok p)).
Proof.
  unfold getTransaction.
  destruct (transaction t) as [tx|]; [discriminate|].
  destruct (parsePayload (getUnsignedPayload t)) as [p|e0] eqn:Hp;
    cbn [bind].
  - destruct (buildTransaction p) as [tx|e1] eqn:Hb; [discriminate|].
    intros [= <- <-]. repeat split. right. right.
    split; [now apply (buildTransaction_throws p) | now exists p].
  - intros [= <- <-]. repeat split.
    unfold parsePayload in Hp.
    destruct (String_match_pairs (getUnsignedPayload t)) as [pairs|].
    + right. left.
      destruct (JSON_parse _); [discriminate Hp|].
      injection Hp as <-. split; [reflexivity | discriminate].
    + left. injection Hp as <-. split; reflexivity.
Qed.

(** X10: when [getTransaction] throws, the instance is left as it was and
    nothing is memoised; the error is [InvalidUnsignedPayload] with the
    message of the first guard when the payload has no pair of characters,
    [InvalidUnsignedPayload] with the message of the [catch] when it has
    pairs that do not give JSON, and otherwise, for a payload that is
    JSON, one of the native errors [TypeError], [SyntaxError] and
    [RangeError] of the conversions, or one of the five errors with which
    the setters of [nonce], [to] and [data] refuse a value. *)
Theorem getTransaction_throws (t t' : Transfer) (e : JSError) :
  getTransaction t = (Throw e, t') ->
  t' = t /\ transaction t' = None
  /\ ((e = InvalidUnsignedPayload "Unable to parse unsigned payload"
       /\ String_match_pairs (getUnsignedPayload t) = None)
      \/ (e = InvalidUnsignedPayload "Unable to decode unsigned payload JSON"
          /\ String_match_pairs (getUnsignedPayload t) <> None)
      \/ ((native_error e \/ refused_by_ethers e)
          /\ exists p, parsePayload (getUnsignedPayload t) = Ok p)).
Proof.
  intros H. destruct (getTransaction_throws_cases t t' e H) as [-> [Hn Hc]].
  auto.
Qed.

Lemma getTransaction_throws_witness :
  getTransaction (transfer_of "eth" "1" (hex overflow_json) None)
  = (Throw (InvalidArgument "overflow" "value"),
     transfer_of "eth" "1" (hex overflow_json) None)
  /\ transaction (transfer_of "eth" "1" (hex overflow_json) None) = None
  /\ refused_by_ethers (InvalidArgument "overflow" "value").
Proof.
  assert (H : getTransaction (transfer_of "eth" "1" (hex overflow_json) None)
              = (Throw (InvalidArgument "overflow" "value"),
                 transfer_of "eth" "1" (hex overflow_json) None))
    by (vm_compute; reflexivity).
  split; [exact H|].
  split; [exact (proj1 (proj2 (getTransaction_throws _ _ _ H)))|].
  left. reflexivity.
Defined.

Lemma match_pairs_short (p : string) :
  no_line_terminator p ->
  (match_pairs p = [] <-> (String.length p <= 1)%nat).
Proof.
  intros Hlt. destruct p as [|a [|b r]]; cbn [match_pairs String.length].
  - split; [lia | reflexivity].
  - split; [lia | reflexivity].
  - rewrite (Hlt a), (Hlt b) by (cbn; tauto). cbn [negb andb].
    split; [discriminate | lia].
Qed.

(** X11: for an instance with nothing memoised and a payload without line
    terminators, [getTransaction] throws the error of the first guard,
    "Unable to parse unsigned payload", exactly when the payload is empty
    or one character long. *)
Theorem getTransaction_unparsable_iff (t : Transfer) :
  transaction t = None ->
  no_line_terminator (getUnsignedPayload t) ->
  (fst (getTransaction t)
   = Throw (InvalidUnsignedPayload "Unable to parse unsigned payload")
   <-> (String.length (getUnsignedPayload t) <= 1)%nat).
Proof.
  intros Hnone Hlt.
  rewrite <- (match_pairs_short _ Hlt). split.
  - intros H.
    destruct (getTransaction t) as [r t'] eqn:Hg. cbn [fst] in H. subst r.
    apply getTransaction_throws_cases in Hg
      as (_ & _ & [[_ Hm] | [[[=] _] | [He _]]]).
    + unfold String_match_pairs in Hm.
      now destruct (match_pairs (getUnsignedPayload t)).
    + unfold native_error, refused_by_ethers in He.
      repeat (destruct He as [He | He]; try discriminate He).
  - intros Hm. unfold getTransaction, parsePayload, String_match_pairs.
    now rewrite Hnone, Hm.
Qed.

Lemma getTransaction_unparsable_iff_witness :
  transaction (transfer_of "eth" "1" "7" None) = None
  /\ no_line_terminator
       (getUnsignedPayload (transfer_of "eth" "1" "7" None))
  /\ (fst (getTransaction (transfer_of "eth" "1" "7" None))
      = Throw (InvalidUnsignedPayload "Unable to parse unsigned payload")
      <-> (String.length
             (getUnsignedPayload (transfer_of "eth" "1" "7" None)) <= 1)%nat).
Proof.
  assert (Hlt : no_line_terminator
                  (getUnsignedPayload (transfer_of "eth" "1" "7" None))).
  { intros a [<- | []]. reflexivity. }
  split; [reflexivity|]. split; [exact Hlt|].
  exact (getTransaction_unparsable_iff
           (transfer_of "eth" "1" "7" None) eq_refl Hlt).
Defined.

(** ** What [getTransaction] makes of a JSON value *)




Lemma buildTransaction_not_object (p : JSValue) :
  match p with JObject _ => False | _ => True end ->
  buildTransaction p = Throw TypeError.
Proof. destruct p; intros H; solve [reflexivity | contradiction]. Qed.

(** X13: for an instance with nothing memoised whose payload is JSON but
    not an object ([null], a number, a string, a boolean or an array),
    [getTransaction] throws a [TypeError] and leaves the instance as it
    was. *)
Theorem getTransaction_not_object (t : Transfer) (p : JSValue) :
  transaction t = None ->
  parsePayload (getUnsignedPayload t) = Ok p ->
  match p with JObject _ => False | _ => True end ->
  getTransaction t = (Throw TypeError, t).
Proof.
  intros Hnone Hparse Hp.
  apply (getTransaction_fresh_throws t p); [assumption..|].
  now apply buildTransaction_not_object.
Qed.


Lemma getTransaction_not_object_witness :
  transaction (transfer_of "eth" "1" (hex "[1]") None) = None
  /\ parsePayload (getUnsignedPayload (transfer_of "eth" "1" (hex "[1]") None))
     = Ok (JArray [JNumber (Number_of "1" 0)])
  /\ getTransaction (transfer_of "eth" "1" (hex "[1]") None)
     = (Throw TypeError, transfer_of "eth" "1" (hex "[1]") None).
Proof.
  assert (Hparse : parsePayload
                     (getUnsignedPayload
                        (transfer_of "eth" "1" (hex "[1]") None))
                   = Ok (JArray [JNumber (Number_of "1" 0)]))
    by (vm_compute; reflexivity).
  split; [reflexivity|]. split; [exact Hparse|].
  exact (getTransaction_not_object
           (transfer_of "eth" "1" (hex "[1]") None)
           (JArray [JNumber (Number_of "1" 0)]) eq_refl Hparse I).
Defined.

(** ** The hexadecimal stage on well-formed payloads *)

Lemma hex_pair_reads (a : ascii) :
  isLineTerminator (hex_digit (N_of_ascii a / 16)) = false
  /\ isLineTerminator (hex_digit (N_of_ascii a mod 16)) = false
  /\ ToUint8
       (parseInt16
          (String (hex_digit (N_of_ascii a / 16))
             (String (hex_digit (N_of_ascii a mod 16)) EmptyString)))
     = N_of_ascii a.
Proof.
  destruct a as [[] [] [] [] [] [] [] []]; vm_compute; repeat split.
Qed.

Lemma hex_no_line_terminator (s : string) : no_line_terminator (hex s).
Proof.
  induction s as [|a s IH]; intros x; cbn [hex list_ascii_of_string In];
    [contradiction|].
  destruct (hex_pair_reads a) as (H1 & H2 & _).
  intros [<- | [<- | Hin]]; [exact H1 | exact H2 | now apply IH].
Qed.

Lemma hex_bytes (s : string) :
  Uint8Array (map parseInt16 (match_pairs (hex s))) = code_units s.
Proof.
  induction s as [|a s IH]; [reflexivity|].
  destruct (hex_pair_reads a) as (H1 & H2 & H3).
  cbn [hex match_pairs]. rewrite H1, H2. cbn [negb andb map Uint8Array].
  rewrite code_units_String. f_equal; [exact H3 | exact IH].
Qed.

Lemma utf8_decode_ascii (l : list N) :
  Forall (fun b => (b < 128)%N) l -> utf8_decode utf8_initial l = l.
Proof.
  induction 1 as [|b l Hb _ IH]; [reflexivity|].
  cbn [utf8_decode]. unfold utf8_step, utf8_lead.
  cbn [bytes_needed utf8_initial N.eqb].
  destruct (N.leb_spec b 127); [|lia].
  cbn [app]. now rewrite IH.
Qed.

Lemma TextDecoder_decode_ascii (l : list N) :
  Forall (fun b => (b < 128)%N) l -> TextDecoder_decode l = l.
Proof.
  intros H. unfold TextDecoder_decode. rewrite (utf8_decode_ascii l H).
  assert (Hflat : flat_map utf16_encode l = l).
  { induction H as [|b l Hb _ IH]; [reflexivity|].
    change (flat_map utf16_encode (b :: l))
      with (utf16_encode b ++ flat_map utf16_encode l).
    rewrite IH. unfold utf16_encode.
    destruct (N.ltb_spec b 65536); [reflexivity | lia]. }
  destruct H as [|b l Hb Hl]; [reflexivity|].
  destruct (N.eqb_spec b 65279); [lia | exact Hflat].
Qed.

(** X14: a payload that is the lowercase hexadecimal writing of a text of
    characters below 128, one pair for each character, goes through the
    pairs, [parseInt], [Uint8Array] and [TextDecoder] back to that text:
    what [getTransaction] hands to [JSON.parse] is the text itself, and
    only a text that is not JSON gives the error of the [catch]. *)
Theorem parsePayload_hex (s : string) :
  s <> EmptyString -> ascii_only s ->
  parsePayload (hex s)
  = match JSON_parse (code_units s) with
    | Some parsedPayload => Ok parsedPayload
    | None =>
        Throw (InvalidUnsignedPayload "Unable to decode unsigned payload JSON")
    end.
Proof.
  intros Hne Hascii. unfold parsePayload, String_match_pairs.
  pose proof (hex_bytes s) as Hbytes.
  destruct (match_pairs (hex s)) as [|pair pairs] eqn:Hpairs.
  - destruct s as [|a s]; [contradiction|].
    cbn [hex match_pairs] in Hpairs.
    destruct (hex_pair_reads a) as (H1 & H2 & _).
    rewrite H1, H2 in Hpairs. discriminate Hpairs.
  - rewrite Hbytes, TextDecoder_decode_ascii; [reflexivity|].
    unfold code_units. apply Forall_map, Forall_forall. exact Hascii.
Qed.

Lemma parsePayload_hex_witness :
  sample_json <> EmptyString /\ ascii_only sample_json
  /\ parsePayload (hex sample_json) = Ok (JObject sample_properties).
Proof.
  assert (Hascii : ascii_only sample_json).
  { intros a Hin. apply N.ltb_lt. revert a Hin.
    apply (proj1 (forallb_forall
                    (fun a => (N_of_ascii a <? 128)%N)
                    (list_ascii_of_string sample_json))).
    vm_compute. reflexivity. }
  split; [discriminate|]. split; [exact Hascii|].
  rewrite (parsePayload_hex sample_json ltac:(discriminate) Hascii).
  vm_compute. reflexivity.
Defined.

(** X15: one more character after a payload of even length is not read: an
    instance whose payload has an odd length decodes to what the payload
    without its last character decodes to, be it a transaction or an
    error. *)
Theorem getTransaction_ignores_last_character (t : Transfer) (p : string)
  (c : ascii) :
  Nat.even (String.length p) = true -> no_line_terminator p ->
  fst (getTransaction (with_payload (p ++ String c EmptyString) t))
  = fst (getTransaction (with_payload p t)).
Proof.
  intros Heven Hlt. unfold getTransaction.
  cbn [with_payload transaction getUnsignedPayload model
         api.unsigned_payload].
  rewrite (parsePayload_odd p c Heven Hlt).
  destruct (let* parsedPayload := parsePayload p in
            buildTransaction parsedPayload); reflexivity.
Qed.

Lemma getTransaction_ignores_last_character_witness :
  Nat.even (String.length (hex sample_json)) = true
  /\ no_line_terminator (hex sample_json)
  /\ fst (getTransaction
            (with_payload (hex sample_json ++ "0") second_transfer))
     = Ok sample_transaction.
Proof.
  split; [vm_compute; reflexivity|].
  split; [apply hex_no_line_terminator|].
  rewrite (getTransaction_ignores_last_character second_transfer
             (hex sample_json) "0"%char
             ltac:(vm_compute; reflexivity)
             (hex_no_line_terminator sample_json)).
  vm_compute. reflexivity.
Defined.

(** ** [wait]: what it returns, what it passes on, when it ends *)

Lemma wait_loop_ok_inv (fuel k : nat) (polls : nat -> Poll)
  (t t' : Transfer) (s i T at_time : Z) :
  wait_loop fuel polls k t s (poll_start polls i s k) i T
  = Some (Ok t', at_time) ->
  t' = t
  /\ exists j : nat,
       terminal_at polls t (k + j)
       /\ (forall m, (k <= m < k + j)%nat -> goes_on polls t m)
       /\ poll_start polls i s (k + j) - s < T
       /\ at_time = poll_start polls i s (k + j) + latency (polls (k + j)%nat).
Proof.
  revert k. induction fuel as [|fuel IH]; intros k; [discriminate|].
  cbn [wait_loop].
  destruct (Z.ltb_spec (poll_start polls i s k - s) T) as [Hguard|];
    [|discriminate].
  destruct (getStatus (network (polls k)) t) as [st|e] eqn:Hst;
    [|discriminate].
  assert (Hhere :
            terminal_at polls t k ->
            Some (Ok t, poll_start polls i s k + latency (polls k))
            = Some (Ok t', at_time) ->
            t' = t
            /\ exists j : nat,
                 terminal_at polls t (k + j)
                 /\ (forall m, (k <= m < k + j)%nat -> goes_on polls t m)
                 /\ poll_start polls i s (k + j) - s < T
                 /\ at_time = poll_start polls i s (k + j)
                              + latency (polls (k + j)%nat)).
  { intros Hterm [= <- <-]. split; [reflexivity|]. exists O.
    rewrite Nat.add_0_r. repeat split; trivial. intros m Hm. lia. }
  assert (Hnext :
            goes_on polls t k ->
            wait_loop fuel polls (S k) t s
              (delay i (poll_start polls i s k + latency (polls k))) i T
            = Some (Ok t', at_time) ->
            t' = t
            /\ exists j : nat,
                 terminal_at polls t (k + j)
                 /\ (forall m, (k <= m < k + j)%nat -> goes_on polls t m)
                 /\ poll_start polls i s (k + j) - s < T
                 /\ at_time = poll_start polls i s (k + j)
                              + latency (polls (k + j)%nat)).
  { intros Hgo H.
    destruct (IH (S k) H) as [-> [j (Hterm & Hbefore & Hg & Hat)]].
    split; [reflexivity|]. exists (S j).
    replace (k + S j)%nat with (S k + j)%nat by lia.
    repeat split; trivial.
    intros m Hm. destruct (Nat.eq_dec m k) as [-> | Hneq];
      [exact Hgo | apply Hbefore; lia]. }
  destruct st.
  - apply Hnext. left. exact Hst.
  - apply Hnext. right. exact Hst.
  - apply Hhere. left. exact Hst.
  - apply Hhere. right. exact Hst.
Qed.

(** X16: when [wait] returns, it returns the transfer it was called on,
    unchanged, and it does so only because a status call saw [COMPLETE] or
    [FAILED]: that round started before the deadline, every round before
    it saw [PENDING] or [BROADCAST], and the call returns when that status
    call is over. *)
Theorem wait_returns_after_terminal (fuel : nat) (polls : nat -> Poll)
  (t t' : Transfer) (startTime intervalMs timeoutMs at_time : Z) :
  wait fuel polls t startTime intervalMs timeoutMs = Some (Ok t', at_time) ->
  t' = t
  /\ exists k : nat,
       terminal_at polls t k
       /\ (forall j, (j < k)%nat -> goes_on polls t j)
       /\ poll_start polls intervalMs startTime k - startTime < timeoutMs
       /\ at_time = poll_start polls intervalMs startTime k
                    + latency (polls k).
Proof.
  intros H.
  destruct (wait_loop_ok_inv fuel O polls t t' startTime intervalMs
              timeoutMs at_time H) as [-> [k (Hterm & Hbefore & Hg & ->)]].
  split; [reflexivity|]. exists k. cbn [Nat.add] in *.
  repeat split; trivial. intros j Hj. apply Hbefore. lia.
Qed.

Lemma wait_returns_after_terminal_witness :
  wait 10 (mined_from 2) broadcast_transfer 0 200 10000
  = Some (Ok broadcast_transfer, 550)
  /\ exists k : nat,
       terminal_at (mined_from 2) broadcast_transfer k
       /\ (forall j, (j < k)%nat -> goes_on (mined_from 2) broadcast_transfer j)
       /\ poll_start (mined_from 2) 200 0 k - 0 < 10000
       /\ 550 = poll_start (mined_from 2) 200 0 k + latency (mined_from 2 k).
Proof.
  assert (H : wait 10 (mined_from 2) broadcast_transfer 0 200 10000
              = Some (Ok broadcast_transfer, 550)) by reflexivity.
  split; [exact H|].
  exact (proj2 (wait_returns_after_terminal 10 (mined_from 2)
                  broadcast_transfer broadcast_transfer 0 200 10000 550 H)).
Defined.

Lemma wait_loop_throws_at (j k : nat) (polls : nat -> Poll) (t : Transfer)
  (s i T : Z) (e : JSError) :
  (forall m, (k <= m < k + j)%nat -> goes_on polls t m) ->
  (forall m, (k <= m <= k + j)%nat -> poll_start polls i s m - s < T) ->
  getStatus (network (polls (k + j)%nat)) t = Throw e ->
  wait_loop (S j) polls k t s (poll_start polls i s k) i T
  = Some (Throw e, poll_start polls i s (k + j) + latency (polls (k + j)%nat)).
Proof.
  revert k. induction j as [|j IH]; intros k Hbefore Hguard Hthrow.
  - rewrite Nat.add_0_r in *. cbn [wait_loop].
    destruct (Z.ltb_spec (poll_start polls i s k - s) T) as [_|Hno];
      [|specialize (Hguard k ltac:(lia)); lia].
    now rewrite Hthrow.
  - cbn [wait_loop].
    destruct (Z.ltb_spec (poll_start polls i s k - s) T) as [_|Hno];
      [|specialize (Hguard k ltac:(lia)); lia].
    replace (k + S j)%nat with (S k + j)%nat in * by lia.
    assert (Hrec := IH (S k)). cbn [poll_start] in Hrec.
    destruct (Hbefore k ltac:(lia)) as [Hst | Hst]; rewrite Hst;
      apply Hrec; trivial; intros m Hm;
      solve [apply Hbefore; lia | apply Hguard; lia].
Qed.

(** X17: [wait] does not try again after a rejected status call: when
    round [k] is the first whose status call throws, the rounds up to it
    start before the deadline and the earlier ones see [PENDING] or
    [BROADCAST], [wait] throws the error of that call, at the time the
    call is over. *)
Theorem wait_passes_error_on (polls : nat -> Poll) (t : Transfer)
  (startTime intervalMs timeoutMs : Z) (k : nat) (e : JSError) :
  (forall j, (j < k)%nat -> goes_on polls t j) ->
  (forall j, (j <= k)%nat ->
             poll_start polls intervalMs startTime j - startTime
             < timeoutMs) ->
  getStatus (network (polls k)) t = Throw e ->
  forall fuel : nat,
    (k < fuel)%nat ->
    wait fuel polls t startTime intervalMs timeoutMs
    = Some (Throw e, poll_start polls intervalMs startTime k
                     + latency (polls k)).
Proof.
  intros Hbefore Hguard Hthrow fuel Hfuel. unfold wait.
  apply (wait_loop_fuel_le (S k)); [lia|].
  apply (wait_loop_throws_at k O); cbn [Nat.add]; trivial;
    intros m Hm; [apply Hbefore | apply Hguard]; lia.
Qed.

Lemma wait_passes_error_on_witness :
  (forall j, (j < 2)%nat -> goes_on (failing_from 2) broadcast_transfer j)
  /\ (forall j, (j <= 2)%nat ->
                poll_start (failing_from 2) 200 0 j - 0 < 10000)
  /\ getStatus (network (failing_from 2 2)) broadcast_transfer
     = Throw (Error "network error")
  /\ wait 10 (failing_from 2) broadcast_transfer 0 200 10000
     = Some (Throw (Error "network error"),
             poll_start (failing_from 2) 200 0 2
             + latency (failing_from 2 2)).
Proof.
  assert (Hbefore : forall j, (j < 2)%nat ->
                      goes_on (failing_from 2) broadcast_transfer j).
  { intros j Hj. left.
    destruct j as [|[|j]]; [reflexivity | reflexivity | lia]. }
  assert (Hguard : forall j, (j <= 2)%nat ->
                     poll_start (failing_from 2) 200 0 j - 0 < 10000).
  { intros j Hj.
    destruct j as [|[|[|j]]]; [reflexivity | reflexivity | reflexivity | lia]. }
  split; [exact Hbefore|]. split; [exact Hguard|]. split; [reflexivity|].
  exact (wait_passes_error_on (failing_from 2) broadcast_transfer 0 200 10000
           2 (Error "network error") Hbefore Hguard eq_refl 10%nat
           ltac:(lia)).
Defined.

Lemma wait_loop_ends (n k : nat) (polls : nat -> Poll) (t : Transfer)
  (s now i T : Z) :
  0 < i -> (forall k, 0 <= latency (polls k)) ->
  T - (now - s) <= Z.of_nat n ->
  exists r, wait_loop (S n) polls k t s now i T = Some r.
Proof.
  intros Hi Hlat. revert k now.
  induction n as [|n IH]; intros k now Hmeasure; cbn [wait_loop];
    destruct (Z.ltb_spec (now - s) T); try lia; eauto.
  pose proof (Hlat k).
  destruct (getStatus (network (polls k)) t) as [[ | | | ]|e]; eauto;
    apply IH; unfold delay; lia.
Qed.

(** X18: with a positive interval and status calls that take no negative
    time, [wait] always ends, whatever the network answers: as many rounds
    as the timeout has milliseconds, and one more, are enough. *)
Theorem wait_ends (polls : nat -> Poll) (t : Transfer)
  (startTime intervalMs timeoutMs : Z) (fuel : nat) :
  0 < intervalMs -> (forall k, 0 <= latency (polls k)) ->
  (Z.to_nat timeoutMs < fuel)%nat ->
  exists r, wait fuel polls t startTime intervalMs timeoutMs = Some r.
Proof.
  intros Hi Hlat Hfuel. unfold wait.
  destruct (wait_loop_ends (Z.to_nat timeoutMs) O polls t startTime
              startTime intervalMs timeoutMs Hi Hlat ltac:(lia)) as [r Hr].
  exists r. apply (wait_loop_fuel_le (S (Z.to_nat timeoutMs))); [lia|].
  exact Hr.
Qed.

Lemma wait_ends_witness :
  0 < 1 /\ (forall k, 0 <= latency (mined_from 2 k))
  /\ (Z.to_nat 100 < 101)%nat
  /\ exists r, wait 101 (mined_from 2) broadcast_transfer 0 1 100 = Some r.
Proof.
  assert (Hlat : forall k, 0 <= latency (mined_from 2 k))
    by (intros k; cbn; lia).
  split; [lia|]. split; [exact Hlat|]. split; [cbn; lia|].
  exact (wait_ends (mined_from 2) broadcast_transfer 0 1 100 101
           ltac:(lia) Hlat ltac:(cbn; lia)).
Defined.

(** X19: with a timeout of zero or less [wait] makes no status call at
    all: it throws the timeout error at once, also for a transfer that is
    already complete. *)
Theorem wait_without_time (polls : nat -> Poll) (t : Transfer)
  (startTime intervalMs timeoutMs : Z) (fuel : nat) :
  timeoutMs <= 0 ->
  wait (S fuel) polls t startTime intervalMs timeoutMs
  = Some (Throw (Error "Transfer timed out"), startTime).
Proof.
  intros HT. unfold wait. cbn [wait_loop].
  destruct (Z.ltb_spec (startTime - startTime) timeoutMs); [lia|].
  reflexivity.
Qed.

Lemma wait_without_time_witness :
  0 <= 0
  /\ getStatus (network (mined_from 0 0)) broadcast_transfer = Ok COMPLETE
  /\ wait 1 (mined_from 0) broadcast_transfer 0 200 0
     = Some (Throw (Error "Transfer timed out"), 0).
Proof.
  split; [lia|]. split; [reflexivity|].
  exact (wait_without_time (mined_from 0) broadcast_transfer 0 200 0 0
           ltac:(lia)).
Defined.
